(** * GP2toOSP: extraction of OSP messages from a GP2 debug file

    A shallow embedding of [src/GP2toOSP.cpp] and the properties of its
    message filter, its wanted-MID list, its time-interval check and its
    line-by-line extraction loop.

    Conventions of the embedding:
    - [unsigned char] arrays ([OSPmsg], [WANTEDMsg]) are [list Z]; a store
      into one truncates to the low 8 bits ([to_uchar]); indexes are [nat];
    - [unsigned int] values are [Z], additions wrap modulo 2^32 ([to_uint]);
    - [time_t] values are [Z];
    - a [char*] into the line buffer is the offset it points at, [NULL] is
      [None];
    - what C leaves undefined (reading through an invalid pointer, storing
      past the end of an array, reading bytes that were never written) is the
      outcome [Fault], from which nothing more is known about the run. *)

From Stdlib Require Import ZArith List Ascii String Bool Lia.
From stdpp Require Import base list.
Import ListNotations.

Local Open Scope Z_scope.

(** ** Outcomes: a result, or undefined behaviour *)

Inductive fault : Type :=
| InvalidPointer           (* a read through NULL + k *)
| OutOfBounds (i : nat)    (* a store at index i, past the array's end *)
| Unterminated.            (* a string read that runs into bytes never written *)

Inductive outcome (A : Type) : Type :=
| Done (a : A)
| Fault (f : fault).
Arguments Done {A} a.
Arguments Fault {A} f.

Definition bind {A B} (m : outcome A) (k : A -> outcome B) : outcome B :=
  match m with
  | Done a => k a
  | Fault f => Fault f
  end.

Notation "'let!' x ':=' m 'in' k" := (bind m (fun x => k))
  (at level 10, x name, m at level 100, k at level 200).

(** ** Constants of the program (the #define lines) *)

Definition MSGSIZE : nat := 2050.
Definition WMSGSIZE : nat := 100.
Definition GP2SIZE : nat := 34 + MSGSIZE * 3 + 12 + 1 + 1.

(** ** Machine integers *)

Definition to_uchar (v : Z) : Z := v mod 256.
Definition to_uint (v : Z) : Z := v mod 2 ^ 32.
Definition to_int (v : Z) : Z := (v + 2 ^ 31) mod 2 ^ 32 - 2 ^ 31.

(** long and unsigned long, of 64 bits as on Linux. For a number outside the
    range strtol gives the nearest end of it, and strtoul the largest
    unsigned long. *)
Definition LONG_MAX : Z := 2 ^ 63 - 1.
Definition LONG_MIN : Z := - 2 ^ 63.
Definition ULONG_MAX : Z := 2 ^ 64 - 1.

Definition strtol_value (v : Z) : Z := Z.max LONG_MIN (Z.min v LONG_MAX).

Definition is_byte (b : Z) : Prop := 0 <= b < 256.

(** Reading element [i] of an unsigned char array: a value from 0 to 255.
    Every read of the program is guarded by
    a bound on [i]; a list shorter than the array it stands for reads as 0. *)
Definition rd (a : list Z) (i : nat) : Z := to_uchar (default 0 (a !! i)).

(** Storing into an array of declared size [size]: inside the array the
    element is replaced by the value's low byte, outside it is undefined. *)
Definition store (size : nat) (a : list Z) (i : nat) (v : Z) : outcome (list Z) :=
  if (i <? size)%nat then Done (<[i := to_uchar v]> a) else Fault (OutOfBounds i).

(** ** Characters and C strings *)

Definition code (c : ascii) : Z := Z.of_N (N_of_ascii c).

Definition NUL : ascii := ascii_of_nat 0.

Definition chars (s : string) : list ascii := list_ascii_of_string s.

(** isspace of the C locale: space, \t, \n, \v, \f, \r. *)
Definition isspace (c : ascii) : bool :=
  (code c =? 32) || ((9 <=? code c) && (code c <=? 13)).

Definition isdigit (c : ascii) : bool := (48 <=? code c) && (code c <=? 57).

Definition hexval (c : ascii) : option Z :=
  let n := code c in
  if (48 <=? n) && (n <=? 57) then Some (n - 48)
  else if (65 <=? n) && (n <=? 70) then Some (n - 55)
  else if (97 <=? n) && (n <=? 102) then Some (n - 87)
  else None.

Definition isxdigit (c : ascii) : bool :=
  match hexval c with Some _ => true | None => false end.

(** The C string held in a buffer: its characters up to the first NUL. *)
Fixpoint cstr (buf : list ascii) : list ascii :=
  match buf with
  | [] => []
  | c :: rest => if Ascii.eqb c NUL then [] else c :: cstr rest
  end.

Fixpoint skip_spaces (s : list ascii) : list ascii :=
  match s with
  | c :: rest => if isspace c then skip_spaces rest else s
  | [] => []
  end.

Fixpoint starts_with (p s : list ascii) : bool :=
  match p, s with
  | [], _ => true
  | a :: p', b :: s' => Ascii.eqb a b && starts_with p' s'
  | _ :: _, [] => false
  end.

(** strstr: the offset of the first occurrence of [needle] in [hay], or
    [None] for NULL. *)
Fixpoint strstr (hay needle : list ascii) : option nat :=
  if starts_with needle hay then Some 0%nat
  else match hay with
       | [] => None
       | _ :: rest => option_map S (strstr rest needle)
       end.

(** Decimal and hexadecimal digit runs, most significant digit first. *)
Fixpoint scan_digits (acc : Z) (s : list ascii) : Z * list ascii :=
  match s with
  | c :: rest => if isdigit c then scan_digits (acc * 10 + (code c - 48)) rest
                 else (acc, s)
  | [] => (acc, [])
  end.

Fixpoint scan_hexdigits (acc : Z) (s : list ascii) : Z * list ascii :=
  match s with
  | c :: rest => match hexval c with
                 | Some d => scan_hexdigits (acc * 16 + d) rest
                 | None => (acc, s)
                 end
  | [] => (acc, [])
  end.

(** A signed decimal number at the head of [s], as strtol reads it: optional
    sign, then at least one digit. *)
Definition scan_signed (s : list ascii) : option (Z * list ascii) :=
  let '(neg, s1) :=
    match s with
    | c :: rest => if code c =? 45 then (true, rest)
                   else if code c =? 43 then (false, rest) else (false, s)
    | [] => (false, s)
    end in
  match s1 with
  | c :: _ => if isdigit c
              then let '(v, rest) := scan_digits 0 s1 in
                   Some (if neg then - v else v, rest)
              else None
  | [] => None
  end.

(** The conversion "%d" of sscanf: leading white space is skipped, the number
    is read as by strtol and stored into an int. *)
Definition scan_d (s : list ascii) : option (Z * list ascii) :=
  match scan_signed (skip_spaces s) with
  | Some (v, rest) => Some (to_int (strtol_value v), rest)
  | None => None
  end.

(** A literal character of a sscanf format. *)
Definition expect (c : ascii) (s : list ascii) : option (list ascii) :=
  match s with
  | d :: rest => if Ascii.eqb c d then Some rest else None
  | [] => None
  end.

(** sscanf(s, "%x", &ui) == 1, and the value stored in [ui]: white space is
    skipped, then an optional sign, an optional 0x, and at least one
    hexadecimal digit; the number is read as by strtoul and stored into an
    unsigned int. *)
Definition sscanf_x (s : list ascii) : option Z :=
  let s0 := skip_spaces s in
  let '(neg, s1) :=
    match s0 with
    | c :: rest => if code c =? 45 then (true, rest)
                   else if code c =? 43 then (false, rest) else (false, s0)
    | [] => (false, s0)
    end in
  let s2 :=
    match s1 with
    | z :: x :: h :: rest =>
        if (code z =? 48) && ((code x =? 120) || (code x =? 88)) && isxdigit h
        then h :: rest else s1
    | _ => s1
    end in
  match s2 with
  | c :: _ => if isxdigit c
              then let '(v, _) := scan_hexdigits 0 s2 in
                   Some (to_uint (if ULONG_MAX <? v then ULONG_MAX
                                  else if neg then - v else v))
              else None
  | [] => None
  end.

(** atoi: strtol in base 10 converted to int; 0 when no number is there. *)
Definition atoi (s : list ascii) : Z :=
  match scan_signed (skip_spaces s) with
  | Some (v, _) => to_int (strtol_value v)
  | None => 0
  end.

(** strtok over the delimiters ",;.:": the successive tokens of [s], the
    non-empty runs of characters other than delimiters. *)
Definition is_delim (c : ascii) : bool :=
  (code c =? 44) || (code c =? 59) || (code c =? 46) || (code c =? 58).

Fixpoint strtok_from (cur s : list ascii) : list (list ascii) :=
  match s with
  | [] => match cur with [] => [] | _ => [rev cur] end
  | c :: rest =>
      if is_delim c
      then match cur with
           | [] => strtok_from [] rest
           | _ => rev cur :: strtok_from [] rest
           end
      else strtok_from (c :: cur) rest
  end.

Definition strtok_all (s : list ascii) : list (list ascii) := strtok_from [] s.

(** ** The wanted-MID list *)

(** unsigned char WANTEDMsg[WMSGSIZE] = {2,6,7,56,8,11,12,15,28,50,64,75,0}; *)
Definition RINEX_MIDS : list Z := [2; 6; 7; 56; 8; 11; 12; 15; 28; 50; 64; 75].

Definition WANTEDMsg_init : list Z :=
  RINEX_MIDS ++ repeat 0 (WMSGSIZE - length RINEX_MIDS).

(** for (i=0; i<WMSGSIZE && WANTEDMsg[i]!=0; i++)
      if (WANTEDMsg[i] == mid) return true;
    with [k] the number of indexes left below WMSGSIZE. *)
Fixpoint wanted_scan (W : list Z) (mid : Z) (i k : nat) : bool :=
  match k with
  | O => false
  | S k' =>
      if rd W i =? 0 then false
      else if rd W i =? mid then true
      else wanted_scan W mid (S i) k'
  end.

Definition wantedMsg (W : list Z) (mid : Z) : bool :=
  if rd W 0 =? 0 then true else wanted_scan W mid 0 WMSGSIZE.

(** for (nextPos=0; nextPos<WMSGSIZE && WANTEDMsg[nextPos]!=0; nextPos++); *)
Fixpoint find_end (W : list Z) (nextPos k : nat) : nat :=
  match k with
  | O => nextPos
  | S k' => if rd W nextPos =? 0 then nextPos else find_end W (S nextPos) k'
  end.

(** One turn of the while loop of addWANTED:
      WANTEDMsg[nextPos] = atoi(ptok);
      if (nextPos<WMSGSIZE && WANTEDMsg[nextPos]!=0) nextPos++;
    The store comes before the test of [nextPos]. *)
Definition add_token (st : list Z * nat) (ptok : list ascii) : outcome (list Z * nat) :=
  let '(W, nextPos) := st in
  let! W' := store WMSGSIZE W nextPos (atoi ptok) in
  Done (W', if (nextPos <? WMSGSIZE)%nat && negb (rd W' nextPos =? 0)
            then S nextPos else nextPos).

Fixpoint add_tokens (st : list Z * nat) (toks : list (list ascii)) : outcome (list Z * nat) :=
  match toks with
  | [] => Done st
  | ptok :: rest => let! st' := add_token st ptok in add_tokens st' rest
  end.

(** void addWANTED(string midList): the list is copied with
    strncpy(mids, midList.c_str(), 300) into char mids[301] and cut into
    tokens. A list of fewer than 300 characters arrives NUL-padded; with 300
    or more, mids[300] is never written and what strtok reads there is not
    determined by the program. *)
Definition addWANTED (midList : list ascii) (W : list Z) : outcome (list Z) :=
  let nextPos := find_end W 0 WMSGSIZE in
  let mids := cstr midList in
  if (length mids <? 300)%nat
  then let! st := add_tokens (W, nextPos) (strtok_all mids) in Done (fst st)
  else Fault Unterminated.

Fixpoint chars_eqb (a b : list ascii) : bool :=
  match a, b with
  | [], [] => true
  | x :: a', y :: b' => Ascii.eqb x y && chars_eqb a' b'
  | _, _ => false
  end.

(** Step 5 of main: the value of option WMSG sets the list of wanted MIDs.
      if (s.compare("ALL") == 0) WANTEDMsg[0] = 0;
      else if (s.compare("RINEX") == 0) { }
      else if (s.find("RINEX,") == 0) addWANTED(s.substr(6));
      else addWANTED(s); *)
Definition set_wanted (s : list ascii) (W : list Z) : outcome (list Z) :=
  if chars_eqb s (chars "ALL") then store WMSGSIZE W 0 0
  else if chars_eqb s (chars "RINEX") then Done W
  else if starts_with (chars "RINEX,") s then addWANTED (drop 6 s) W
  else addWANTED s W.

(** Step 5 of main, the list that is logged after the option is read:
      if (WANTEDMsg[0] == 0) s += "ALL";
      else for (int i=0; i<WMSGSIZE && WANTEDMsg[i] != 0; i++)
        s += " " + to_string((long long) WANTEDMsg[i]);
    [None] stands for "ALL", [Some l] for the numbers printed in a row. *)
Fixpoint listed_from (W : list Z) (i k : nat) : list Z :=
  match k with
  | O => []
  | S k' => if rd W i =? 0 then [] else rd W i :: listed_from W (S i) k'
  end.

Definition wanted_listing (W : list Z) : option (list Z) :=
  if rd W 0 =? 0 then None else Some (listed_from W 0 WMSGSIZE).

(** ** Time tags *)

Record tm : Type := mk_tm {
  tm_sec : Z; tm_min : Z; tm_hour : Z; tm_mday : Z; tm_mon : Z; tm_year : Z;
  tm_wday : Z; tm_yday : Z; tm_isdst : Z }.

(** sscanf(s, "%d/%d/%d %d:%d:%d", &a, &b, &c, &d, &e, &f) == 6 and the six
    values. The blank of the format matches any run of white space, which the
    following %d skips anyway. *)
Definition sscanf_dt (s : list ascii) : option (Z * Z * Z * Z * Z * Z) :=
  '(a, s) ← scan_d s;
  s ← expect "/" s;
  '(b, s) ← scan_d s;
  s ← expect "/" s;
  '(c, s) ← scan_d s;
  '(d, s) ← scan_d (skip_spaces s);
  s ← expect ":" s;
  '(e, s) ← scan_d s;
  s ← expect ":" s;
  '(f, _) ← scan_d s;
  Some (a, b, c, d, e, f).

Section Clock.

(** The C library's mktime, which depends on the local time zone, and the
    broken-down time that localtime(&rawtime) returns for the current time
    (the fields dt2time does not assign, tm_isdst among them, keep its
    values). *)
Variable mktime : tm -> Z.
Variable localtime_now : tm.

Definition dt2time (dateAndTime : list ascii) : Z :=
  match sscanf_dt (cstr dateAndTime) with
  | Some (a, b, c, d, e, f) =>
      mktime {| tm_mday := a; tm_mon := to_int (b - 1); tm_year := to_int (c - 1900);
                tm_hour := d; tm_min := e; tm_sec := f;
                tm_wday := tm_wday localtime_now;
                tm_yday := tm_yday localtime_now;
                tm_isdst := tm_isdst localtime_now |}
  | None => -1
  end.

Definition checkInterval (timeTag : list ascii) (fromT toT : Z) : bool :=
  let tag := dt2time timeTag in
  if negb (tag =? -1) then (fromT <=? tag) && (tag <=? toT) else false.

End Clock.

(** Step 6 of main refuses the interval of the options
      if ((startTime < 0) || (endTime < 0) || (startTime > endTime)) *)
Definition interval_refused (startTime endTime : Z) : bool :=
  (startTime <? 0) || (endTime <? 0) || (startTime >? endTime).

(** ** Checking a decoded message *)

Inductive verdict : Type :=
| NoMessageData                        (* " No message data" *)
| PayloadLenMismatch (payloadLen : Z)  (* " PayloadLen=...<>...=BytesRead" *)
| WrongChecksum                        (* " Wrong checksum" *)
| Checked (payloadLen : Z).

(** payloadLen = (OSPmsg[0] << 8) | OSPmsg[1]; *)
Definition be16 (hi lo : Z) : Z := Z.lor (Z.shiftl hi 8) lo.

(** for (unsigned int i=0; i<payloadLen; i++) {
      computedCheck += OSPmsg[i+2];
      computedCheck &= 0x7FFF; }
    with [k] the number of turns left. *)
Fixpoint checksum_loop (msg : list Z) (i k : nat) (computedCheck : Z) : Z :=
  match k with
  | O => computedCheck
  | S k' =>
      checksum_loop msg (S i) k'
        (Z.land (to_uint (computedCheck + rd msg (i + 2))) 0x7FFF)
  end.

(** Lines 232 to 252 of extractMsgs, on the array [msg] and the number
    [nbytesRead] of bytes decoded into it. *)
Definition check_message (msg : list Z) (nbytesRead : nat) : verdict :=
  if (MSGSIZE <=? nbytesRead)%nat || (nbytesRead <=? 4)%nat then NoMessageData
  else
    let payloadLen := be16 (rd msg 0) (rd msg 1) in
    if negb (Z.of_nat nbytesRead =? to_uint (payloadLen + 4))
    then PayloadLenMismatch payloadLen
    else
      let computedCheck := checksum_loop msg 0 (Z.to_nat payloadLen) 0 in
      let messageCheck :=
        be16 (rd msg (Z.to_nat payloadLen + 2)) (rd msg (Z.to_nat payloadLen + 3)) in
      if negb (computedCheck =? messageCheck) then WrongChecksum
      else Checked payloadLen.

(** ** Decoding the bytes of a line *)

(** while (header<tail && nbytesRead<MSGSIZE) {
      if (sscanf(header, "%x", &ui)==1) {
        OSPmsg[nbytesRead] = ui; header += 3; nbytesRead++; }
      else header = tail; }
    [k] is MSGSIZE - nbytesRead, so that the store is inside OSPmsg. *)
Fixpoint decode (line : list ascii) (tail : nat) (k : nat)
    (header nbytesRead : nat) (msg : list Z) : nat * list Z :=
  match k with
  | O => (nbytesRead, msg)
  | S k' =>
      if (header <? tail)%nat then
        match sscanf_x (drop header line) with
        | Some ui =>
            decode line tail k' (header + 3)%nat (S nbytesRead)
              (<[nbytesRead := to_uchar ui]> msg)
        | None => (nbytesRead, msg)
        end
      else (nbytesRead, msg)
  end.

(** ** The extraction loop *)

(** The messages handed to the logger, with the level they are logged at. *)
Inductive level : Type := SEVERE | WARNING | FINE | FINEST.

Inductive diagnostic : Type :=
| TimeTagOutsideInterval (timeTag : list ascii)
| NoHeaderOrTailer (timeTag : list ascii)
| NoData (timeTag : list ascii)
| PayloadLenDiffers (timeTag : list ascii) (payloadLen bytesRead : Z)
| WrongCheck (timeTag : list ascii)
| WrittenMID (timeTag : list ascii) (mid : Z)
| SkippedMID (timeTag : list ascii) (mid : Z)
| CannotWrite.

Definition level_of (d : diagnostic) : level :=
  match d with
  | TimeTagOutsideInterval _ => FINEST
  | NoHeaderOrTailer _ | NoData _ | PayloadLenDiffers _ _ _ | WrongCheck _ => WARNING
  | WrittenMID _ _ => FINE
  | SkippedMID _ _ => FINEST
  | CannotWrite => SEVERE
  end.

(** fgets(GP2line, GP2SIZE, inFile) returned [line]: its characters and a NUL
    are at the start of the buffer, what follows is left from earlier lines. *)
Definition fgets_into (GP2line line : list ascii) : list ascii :=
  line ++ NUL :: drop (S (length line)) GP2line.

Section Extract.

Variable mktime : tm -> Z.
Variable localtime_now : tm.

(** The output file: fwrite(ptr, 1, n, outFile) with the [n] bytes at [ptr]
    returns the number of bytes written and leaves the file changed. *)
Variable FILE : Type.
Variable fwrite : list Z -> FILE -> Z * FILE.

(** The globals and locals that live across the lines, with the log. The
    list WANTEDMsg is not changed by the loop. *)
Record state : Type := mk_state {
  GP2line : list ascii;
  OSPmsg : list Z;
  nMessages : Z;
  outFile : FILE;
  log : list diagnostic }.

Definition logged (d : diagnostic) (st : state) : state :=
  mk_state (GP2line st) (OSPmsg st) (nMessages st) (outFile st) (log st ++ [d]).

(** The state when fgets has put [line] into GP2line. *)
Definition read_into (st : state) (line : list ascii) : state :=
  mk_state (fgets_into (GP2line st) line) (OSPmsg st) (nMessages st) (outFile st) (log st).

(** What the body of the while loop ends with: [continue] (or its end), or
    [return]. *)
Inductive control : Type := Next | Return (r : Z).

(** The body of the loop for the line that fgets just read, up to the test
    of the MID (lines 208 to 254): the line is logged and skipped, or its
    message, decoded into OSPmsg, is to be written; [payloadLen] is then
    returned with the time tag. *)
Definition accept_line (WANTEDMsg : list Z) (fromT toT : Z)
    (st : state) (line : list ascii) : outcome (state * option (list ascii * Z)) :=
  let st := read_into st line in
  let buf := GP2line st in
  let timeTag := take 23 buf in      (* timeTag = string(GP2line, 23) *)
  let text := cstr buf in
  if negb (checkInterval mktime localtime_now buf fromT toT)
  then Done (logged (TimeTagOutsideInterval timeTag) st, None)
  else
    match strstr text (chars "A0 A2") with
    | None =>
        (* tail = strstr(header+5, "B0 B3") with header == NULL *)
        Fault InvalidPointer
    | Some header =>
        match option_map (Nat.add (header + 5))
                (strstr (drop (header + 5) text) (chars "B0 B3")) with
        | None => Done (logged (NoHeaderOrTailer timeTag) st, None)
        | Some tail =>
            let '(nbytesRead, msg) :=
              decode text tail MSGSIZE (header + 6) 0 (OSPmsg st) in
            let st := mk_state buf msg (nMessages st) (outFile st) (log st) in
            match check_message msg nbytesRead with
            | NoMessageData => Done (logged (NoData timeTag) st, None)
            | PayloadLenMismatch payloadLen =>
                Done (logged (PayloadLenDiffers timeTag payloadLen
                                (Z.of_nat nbytesRead - 4)) st, None)
            | WrongChecksum => Done (logged (WrongCheck timeTag) st, None)
            | Checked payloadLen =>
                if wantedMsg WANTEDMsg (rd msg 2)
                then Done (st, Some (timeTag, payloadLen))
                else Done (logged (SkippedMID timeTag (rd msg 2)) st, None)
            end
        end
    end.

(** The first [payloadLen + 2] bytes of OSPmsg, which fwrite is given. *)
Definition frame (msg : list Z) (payloadLen : Z) : list Z :=
  map to_uchar (take (Z.to_nat (to_uint (payloadLen + 2))) msg).

(** if (fwrite(OSPmsg, 1, payloadLen+2, outFile) == payloadLen+2) nMessages++;
    else { plog->severe(...); return -nMessages - 4; }
    plog->fine(timeTag + " written MID " + ...); *)
Definition write_message (st : state) (timeTag : list ascii) (payloadLen : Z)
    : state * control :=
  let '(written, out) := fwrite (frame (OSPmsg st) payloadLen) (outFile st) in
  if written =? to_uint (payloadLen + 2)
  then (logged (WrittenMID timeTag (rd (OSPmsg st) 2))
          (mk_state (GP2line st) (OSPmsg st) (nMessages st + 1) out (log st)),
        Next)
  else (logged CannotWrite
          (mk_state (GP2line st) (OSPmsg st) (nMessages st) out (log st)),
        Return (- nMessages st - 4)).

Definition process_line (WANTEDMsg : list Z) (fromT toT : Z)
    (st : state) (line : list ascii) : outcome (state * control) :=
  let! r := accept_line WANTEDMsg fromT toT st line in
  match snd r with
  | None => Done (fst r, Next)
  | Some (timeTag, payloadLen) => Done (write_message (fst r) timeTag payloadLen)
  end.

(** while (fgets(GP2line, GP2SIZE, inFile) != NULL) { ... }
    over the lines that the successive calls of fgets deliver: the loop ends
    with the lines ([Next]) or by the return in its body. *)
Fixpoint read_lines (WANTEDMsg : list Z) (fromT toT : Z)
    (st : state) (inFile : list (list ascii)) : outcome (state * control) :=
  match inFile with
  | [] => Done (st, Next)
  | line :: rest =>
      let! r := process_line WANTEDMsg fromT toT st line in
      match snd r with
      | Next => read_lines WANTEDMsg fromT toT (fst r) rest
      | Return v => Done (fst r, Return v)
      end
  end.

Definition initial (out : FILE) : state :=
  mk_state (repeat NUL GP2SIZE) (repeat 0 MSGSIZE) 0 out [].

(** The value returned: that of the return in the loop, or nMessages after
    it. *)
Definition extractMsgs (WANTEDMsg : list Z) (inFile : list (list ascii))
    (fromT toT : Z) (out : FILE) : outcome (state * Z) :=
  let! r := read_lines WANTEDMsg fromT toT (initial out) inFile in
  Done (fst r, match snd r with
               | Next => nMessages (fst r)
               | Return v => v
               end).

End Extract.

(** ** Notions used to state the properties *)

(** An entry of the wanted list: a byte other than the 0 that ends it. *)
Definition nonzero_byte (b : Z) : Prop := is_byte b /\ b <> 0.

Definition Zsum (l : list Z) : Z := fold_right Z.add 0 l.

(** The payload of a decoded message: the [payloadLen] bytes that follow the
    two bytes of the length. *)
Definition payload_of (msg : list Z) (payloadLen : Z) : list Z :=
  map to_uchar (take (Z.to_nat payloadLen) (drop 2 msg)).

(** The two bytes after the payload, as a big-endian number. *)
Definition trailing_check (msg : list Z) (payloadLen : Z) : Z :=
  256 * rd msg (Z.to_nat payloadLen + 2) + rd msg (Z.to_nat payloadLen + 3).

(** The extraction as the specification describes it fails on a line in
    which the head marker "A0 A2" is absent, or the tail marker "B0 B3" is
    absent from what follows the head. *)
Definition missing_marker (line : list ascii) : bool :=
  match strstr (cstr line) (chars "A0 A2") with
  | None => true
  | Some header =>
      match strstr (drop (header + 5) (cstr line)) (chars "B0 B3") with
      | None => true
      | Some _ => false
      end
  end.

(** The number of messages that the log reports as written. *)
Fixpoint count_written (l : list diagnostic) : Z :=
  match l with
  | [] => 0
  | WrittenMID _ _ :: l' => 1 + count_written l'
  | _ :: l' => count_written l'
  end.

(** The order of the steps as the specification has it, for one step
    [result] of the loop on [line]: a line on which the extraction fails is
    logged as having no header or tailer and skipped, whatever its time tag
    and the time interval. *)
Definition extraction_reported_first {F : Type}
    (result : outcome (state F * control)) (line : list ascii) : Prop :=
  missing_marker line = true ->
  exists st' timeTag,
    result = Done (st', Next)
    /\ last (log F st') = Some (NoHeaderOrTailer timeTag).

(** The log at the end of a run or of a step, when there is one. *)
Definition final_log {F A : Type} (r : outcome (state F * A)) : option (list diagnostic) :=
  match r with
  | Done (st, _) => Some (log F st)
  | Fault _ => None
  end.

(** The identifiers said to leave no entry in the wanted list: those without
    a number to convert, and those whose number is a multiple of 256, 0 among
    them. *)
Definition named_zero (z : list ascii) : Prop :=
  match scan_signed (skip_spaces z) with
  | None => True
  | Some (v, _) => v mod 256 = 0
  end.

(** The same, the number being in the range of long. *)
Definition zero_in_long (z : list ascii) : Prop :=
  match scan_signed (skip_spaces z) with
  | None => True
  | Some (v, _) => LONG_MIN <= v <= LONG_MAX /\ v mod 256 = 0
  end.

(** What is said of such an identifier, for the turn of the loop of addWANTED
    that meets it with the list [W] and the insertion position [nextPos]: a 0
    is stored at the position, inside the list, and the position stays. *)
Definition zero_identifier_dropped (W : list Z) (nextPos : nat) (z : list ascii) : Prop :=
  named_zero z ->
  add_token (W, nextPos) z = Done (<[nextPos := 0]> W, nextPos).

(** The bytes that the identifiers [toks] leave in the wanted list: the low
    bytes of their conversions by atoi, those that are 0 left out. *)
Definition identifiers (toks : list (list ascii)) : list Z :=
  List.filter (fun v => negb (v =? 0)) (map (fun ptok => to_uchar (atoi ptok)) toks).

(** A wanted list in its array: the entries [l], then zeros up to WMSGSIZE. *)
Definition wanted_array (l : list Z) : list Z := l ++ repeat 0 (WMSGSIZE - length l).

(** Reading back the output file: a record is two bytes, the length of the
    payload as a big-endian number, and the payload. *)
Definition read_record (bytes : list Z) : option (list Z * list Z) :=
  match bytes with
  | hi :: lo :: rest =>
      let n := Z.to_nat (be16 hi lo) in
      if (n <=? length rest)%nat then Some (take n rest, drop n rest) else None
  | _ => None
  end.

Fixpoint read_records (fuel : nat) (bytes : list Z) : option (list (list Z)) :=
  match bytes with
  | [] => Some []
  | _ =>
      match fuel with
      | O => None
      | S fuel' =>
          match read_record bytes with
          | Some (payload, rest) =>
              match read_records fuel' rest with
              | Some payloads => Some (payload :: payloads)
              | None => None
              end
          | None => None
          end
      end
  end.

(** The records of the payloads [ps], one after the other. *)
Definition records_of (ps : list (list Z)) : list Z :=
  concat (map (fun payload =>
                 let n := Z.of_nat (length payload) in
                 (n / 256) :: (n mod 256) :: payload) ps).

(** The text of the bytes of a message in a GP2 line, as the documentation
    of main shows it: each byte as two hexadecimal digits, upper case, and a
    blank. *)
Definition hex_digit (d : Z) : ascii :=
  ascii_of_N (Z.to_N (if d <? 10 then 48 + d else 55 + d)).

Definition hex_byte (b : Z) : list ascii :=
  [hex_digit (b / 16); hex_digit (b mod 16); " "%char].

Definition hex_of_bytes (bs : list Z) : list ascii := concat (map hex_byte bs).

(** The time tag dd/mm/yyyy hh:mm:ss of the lines and of the options. *)
Definition digit (d : Z) : ascii := ascii_of_N (Z.to_N (48 + d)).

Definition two_digits (n : Z) : list ascii := [digit (n / 10); digit (n mod 10)].

Definition four_digits (n : Z) : list ascii :=
  [digit (n / 1000); digit (n / 100 mod 10); digit (n / 10 mod 10); digit (n mod 10)].

Definition time_tag (d m y h mi s : Z) : list ascii :=
  two_digits d ++ chars "/" ++ two_digits m ++ chars "/" ++ four_digits y
  ++ chars " " ++ two_digits h ++ chars ":" ++ two_digits mi ++ chars ":" ++ two_digits s.

(** A payload as it is written: 1 to 2045 bytes. *)
Definition written_payload (payload : list Z) : Prop :=
  Forall is_byte payload /\ (1 <= length payload <= 2045)%nat.

(** What may follow a number for the scan to end there. *)
Definition no_digit_first (s : list ascii) : Prop :=
  match s with
  | [] => True
  | c :: _ => isdigit c = false
  end.

(** The head marker is in every line of [inFile] whose time tag is inside
    the interval. *)
Definition heads_present (mktime : tm -> Z) (now : tm) (fromT toT : Z)
    (inFile : list (list ascii)) : Prop :=
  forall line, In line inFile ->
    checkInterval mktime now line fromT toT = true ->
    strstr (cstr line) (chars "A0 A2") <> None.

(** An output file that takes every write: fwrite appends the bytes and
    returns their number. *)
Definition fwrite_append (bytes : list Z) (out : list Z) : Z * list Z :=
  (Z.of_nat (length bytes), out ++ bytes).

(** ** A reference environment

    One clock and one output file to run the program on: mktime for a system
    whose local time is UTC, and a file on a volume with [space] bytes left,
    to which fwrite writes what still fits. *)

Definition days_from_civil (y m d : Z) : Z :=
  let y' := if m <=? 2 then y - 1 else y in
  let era := y' / 400 in
  let yoe := y' - era * 400 in
  let doy := (153 * ((m + 9) mod 12) + 2) / 5 + d - 1 in
  era * 146097 + (yoe * 365 + yoe / 4 - yoe / 100 + doy) - 719468.

Definition mktime_utc (t : tm) : Z :=
  let y := 1900 + tm_year t + tm_mon t / 12 in
  let m := tm_mon t mod 12 + 1 in
  days_from_civil y m (tm_mday t) * 86400
  + tm_hour t * 3600 + tm_min t * 60 + tm_sec t.

(** localtime at 2021-06-01 12:00:00 UTC, a Tuesday. *)
Definition noon_tm : tm := mk_tm 0 0 12 1 5 121 2 151 0.

Record volume : Type := mk_volume { space : Z; content : list Z }.

Definition fwrite_volume (bytes : list Z) (v : volume) : Z * volume :=
  let n := Z.min (Z.of_nat (length bytes)) (Z.max 0 (space v)) in
  (n, mk_volume (space v - n) (content v ++ take (Z.to_nat n) bytes)).

Definition run_utc (WANTEDMsg : list Z) (inFile : list string)
    (fromT toT : Z) (out : volume) : outcome (state volume * Z) :=
  extractMsgs mktime_utc noon_tm volume fwrite_volume
    WANTEDMsg (map chars inFile) fromT toT out.

(** The example line of the program's documentation, its end of line
    included. *)
Definition doc_line : string :=
  "29/10/2014 20:31:08.942 (0) A0 A2 00 12 33 06 00 00 00 00 00 00 00 19 00 00 00 00 00 00 64 E1 01 97 B0 B3
".

(** The same line without its head: no "A0 A2". *)
Definition headless_line : string :=
  "29/10/2014 20:31:08.942 (0) 00 12 33 06 00 00 00 00 00 00 00 19 00 00 00 00 00 00 64 E1 01 97 B0 B3
".

(** The same line cut before its tail: no "B0 B3". *)
Definition tailless_line : string :=
  "29/10/2014 20:31:08.942 (0) A0 A2 00 12 33 06 00 00 00 00 00 00 00 19 00 00 00 00 00 00 64 E1 01 97
".

(** The documented line three times, for a volume with room for one message
    and a half. *)
Definition three_lines : list string := [doc_line; doc_line; doc_line].

(** The bytes of the documented line between head and tail, in OSPmsg. *)
Definition doc_msg : list Z :=
  [0; 18; 51; 6; 0; 0; 0; 0; 0; 0; 0; 25; 0; 0; 0; 0; 0; 0; 100; 225; 1; 151]
  ++ repeat 0 (MSGSIZE - 22).

Definition WANTED_ALL : list Z := <[0%nat := 0]> WANTEDMsg_init.

(** The default interval of the options: 01/01/2014 00:00:00 to
    31/12/2020 23:59:59. *)
Definition default_from : Z := dt2time mktime_utc noon_tm (chars "01/01/2014 00:00:00").
Definition default_to : Z := dt2time mktime_utc noon_tm (chars "31/12/2020 23:59:59").

Definition from_2015 : Z := dt2time mktime_utc noon_tm (chars "01/01/2015 00:00:00").

(** * Properties *)

Example default_interval : default_from = 1388534400 /\ default_to = 1609459199.
Proof. split; vm_compute; reflexivity. Qed.

Example doc_line_time :
  dt2time mktime_utc noon_tm (chars doc_line) = 1414614668.
Proof. vm_compute. reflexivity. Qed.

(** ** Bytes *)

Lemma to_uchar_byte v : is_byte (to_uchar v).
Proof. unfold is_byte, to_uchar. apply Z.mod_pos_bound. lia. Qed.

Lemma to_uchar_of_byte b : is_byte b -> to_uchar b = b.
Proof. unfold is_byte, to_uchar. intros H. apply Z.mod_small. exact H. Qed.

Lemma to_uchar_idem v : to_uchar (to_uchar v) = to_uchar v.
Proof. apply to_uchar_of_byte, to_uchar_byte. Qed.

Lemma rd_byte a i : is_byte (rd a i).
Proof. apply to_uchar_byte. Qed.

Lemma rd_insert_eq a i v :
  (i < length a)%nat -> rd (<[i := v]> a) i = to_uchar v.
Proof.
  intros Hi. unfold rd. rewrite list_lookup_insert_eq by exact Hi. reflexivity.
Qed.

Lemma rd_insert_ne a i j v : i <> j -> rd (<[i := v]> a) j = rd a j.
Proof.
  intros Hij. unfold rd. rewrite list_lookup_insert_ne by exact Hij. reflexivity.
Qed.

Lemma rd_head b a : rd (b :: a) 0 = to_uchar b.
Proof. reflexivity. Qed.

Lemma rd_tail b a i : rd (b :: a) (S i) = rd a i.
Proof. reflexivity. Qed.

Lemma rd_drop a i j : rd (drop i a) j = rd a (i + j).
Proof. unfold rd. rewrite lookup_drop. reflexivity. Qed.

Lemma to_int_low_byte v : to_uchar (to_int v) = to_uchar v.
Proof.
  unfold to_uchar, to_int.
  pose proof (Z.div_mod (v + 2 ^ 31) (2 ^ 32) ltac:(lia)) as E.
  replace ((v + 2 ^ 31) mod 2 ^ 32 - 2 ^ 31)
    with (v + (- (2 ^ 24) * ((v + 2 ^ 31) / 2 ^ 32)) * 256) by lia.
  apply Z.mod_add. lia.
Qed.

(** ** The scan of the wanted list *)

Lemma wanted_scan_drop k : forall W mid i,
  wanted_scan W mid i k = wanted_scan (drop i W) mid 0 k.
Proof.
  induction k as [|k IH]; intros W mid i; simpl; [reflexivity|].
  rewrite rd_drop, Nat.add_0_r.
  rewrite (IH W mid (S i)), (IH (drop i W) mid 1%nat), drop_drop.
  replace (i + 1)%nat with (S i) by lia. reflexivity.
Qed.

(** On an array that starts with the non-zero bytes [l] and a 0, the scan
    finds exactly the members of [l]. *)
Lemma wanted_scan_members l : forall rest mid k,
  Forall nonzero_byte l -> (length l < k)%nat ->
  wanted_scan (l ++ 0 :: rest) mid 0 k = true <-> In mid l.
Proof.
  induction l as [|b l IH]; intros rest mid k Hl Hk.
  - destruct k; [simpl in Hk; lia|]. simpl. split; [discriminate | tauto].
  - destruct k as [|k]; [simpl in Hk; lia|].
    inversion Hl as [|? ? [Hb Hnz] Hl']; subst.
    cbn [wanted_scan app]. rewrite rd_head, (to_uchar_of_byte b Hb).
    destruct (Z.eqb_spec b 0) as [|_]; [contradiction|].
    destruct (Z.eqb_spec b mid) as [->|Hne].
    + split; [intros _; left; reflexivity | reflexivity].
    + rewrite wanted_scan_drop. cbn [drop].
      rewrite (IH rest mid k Hl' ltac:(simpl in Hk; lia)).
      split; [intros H; right; exact H | intros [H|H]; [contradiction | exact H]].
Qed.

Lemma wanted_scan_zero W : forall k i, wanted_scan W 0 i k = false.
Proof.
  induction k as [|k IH]; intros i; simpl; [reflexivity|].
  destruct (Z.eqb_spec (rd W i) 0); [reflexivity | apply IH].
Qed.

(** wantedMsg on a well-formed list: everything when the list is empty,
    else the members of the list. *)
Lemma wantedMsg_members l rest mid :
  Forall nonzero_byte l -> (length l < WMSGSIZE)%nat ->
  wantedMsg (l ++ 0 :: rest) mid = true <-> l = [] \/ In mid l.
Proof.
  intros Hl Hk. unfold wantedMsg. destruct l as [|b l].
  - simpl. split; [intros _; left; reflexivity | reflexivity].
  - inversion Hl as [|? ? [Hb Hnz] _]; subst.
    cbn [app]. rewrite rd_head, (to_uchar_of_byte b Hb).
    destruct (Z.eqb_spec b 0) as [|_]; [contradiction|].
    change (b :: l ++ 0 :: rest) with ((b :: l) ++ 0 :: rest).
    rewrite (wanted_scan_members (b :: l) rest mid WMSGSIZE Hl Hk).
    split; [intros H; right; exact H | intros [H|H]; [discriminate | exact H]].
Qed.

(** C9: with a first entry other than 0 the list does not accept all MIDs,
    and then the MID 0 is not wanted: the scan stops at the first 0 entry and
    no entry before it equals 0. *)
Theorem wantedMsg_rejects_mid_zero (W : list Z) :
  rd W 0 <> 0 -> wantedMsg W 0 = false.
Proof.
  intros H. unfold wantedMsg.
  destruct (Z.eqb_spec (rd W 0) 0) as [E|_]; [contradiction|].
  apply wanted_scan_zero.
Qed.

Lemma wantedMsg_rejects_mid_zero_witness :
  rd WANTEDMsg_init 0 <> 0 /\ wantedMsg WANTEDMsg_init 0 = false.
Proof.
  split.
  - vm_compute. discriminate.
  - apply (wantedMsg_rejects_mid_zero WANTEDMsg_init). vm_compute. discriminate.
Defined.

Lemma RINEX_MIDS_nonzero : Forall nonzero_byte RINEX_MIDS.
Proof. repeat constructor; unfold is_byte; lia. Qed.

(** C8: option value ALL makes every MID wanted (those from 0 to 255 in
    particular); RINEX keeps the default list, whose members are the wanted
    MIDs; "RINEX,99" adds 99 to them. *)
Theorem wanted_by_option :
  (exists W, set_wanted (chars "ALL") WANTEDMsg_init = Done W
             /\ forall mid, wantedMsg W mid = true)
  /\ (exists W, set_wanted (chars "RINEX") WANTEDMsg_init = Done W
                /\ forall mid, wantedMsg W mid = true <-> In mid RINEX_MIDS)
  /\ (exists W, set_wanted (chars "RINEX,99") WANTEDMsg_init = Done W
                /\ forall mid, wantedMsg W mid = true <-> In mid (RINEX_MIDS ++ [99])).
Proof.
  split; [|split]; eexists; (split; [vm_compute; reflexivity|]); intros mid.
  - reflexivity.
  - change (wantedMsg (RINEX_MIDS ++ 0 :: repeat 0 87) mid = true <-> In mid RINEX_MIDS).
    rewrite wantedMsg_members.
    + split; [intros [H|H]; [discriminate | exact H] | intros H; right; exact H].
    + exact RINEX_MIDS_nonzero.
    + vm_compute. lia.
  - change (wantedMsg ((RINEX_MIDS ++ [99]) ++ 0 :: repeat 0 86) mid = true
            <-> In mid (RINEX_MIDS ++ [99])).
    rewrite wantedMsg_members.
    + split; [intros [H|H]; [discriminate | exact H] | intros H; right; exact H].
    + apply Forall_app. split; [exact RINEX_MIDS_nonzero|].
      repeat constructor; unfold is_byte; lia.
    + vm_compute. lia.
Qed.

(** The 256 values of a MID, tried one by one. *)
Example wanted_RINEX_bytes :
  filter (fun mid => wantedMsg WANTEDMsg_init mid = true) (seqZ 0 256)
  = [2; 6; 7; 8; 11; 12; 15; 28; 50; 56; 64; 75].
Proof. vm_compute. reflexivity. Qed.

(** ** The loop of addWANTED *)

Lemma add_token_inside W nextPos ptok :
  (nextPos < WMSGSIZE)%nat ->
  add_token (W, nextPos) ptok
  = Done (<[nextPos := to_uchar (atoi ptok)]> W,
          if negb (rd (<[nextPos := to_uchar (atoi ptok)]> W) nextPos =? 0)
          then S nextPos else nextPos).
Proof.
  intros H. unfold add_token, store.
  apply Nat.ltb_lt in H. rewrite H. reflexivity.
Qed.

Lemma add_token_outside W ptok :
  add_token (W, WMSGSIZE) ptok = Fault (OutOfBounds WMSGSIZE).
Proof. reflexivity. Qed.

Lemma rd_stored_zero W i : rd (<[i := 0]> W) i = 0.
Proof.
  destruct (Nat.lt_ge_cases i (length W)) as [H|H].
  - rewrite rd_insert_eq by exact H. reflexivity.
  - rewrite list_insert_ge by exact H.
    unfold rd. rewrite lookup_ge_None_2 by exact H. reflexivity.
Qed.

Lemma add_token_zero W nextPos z :
  (nextPos < WMSGSIZE)%nat -> to_uchar (atoi z) = 0 ->
  add_token (W, nextPos) z = Done (<[nextPos := 0]> W, nextPos).
Proof.
  intros H Hz. rewrite add_token_inside by exact H.
  rewrite Hz, rd_stored_zero. reflexivity.
Qed.

Lemma strtol_value_in_range v : LONG_MIN <= v <= LONG_MAX -> strtol_value v = v.
Proof. unfold strtol_value. lia. Qed.

(** The low byte of what atoi returns is the low byte of the number read, for
    a number in the range of long. *)
Lemma atoi_low_byte tok v rest :
  scan_signed (skip_spaces tok) = Some (v, rest) ->
  LONG_MIN <= v <= LONG_MAX ->
  to_uchar (atoi tok) = to_uchar v.
Proof.
  intros H Hv. unfold atoi. rewrite H, strtol_value_in_range by exact Hv.
  apply to_int_low_byte.
Qed.

Example zero_tokens :
  map (fun t => to_uchar (atoi (chars t))) ["abc"; ""; "0"; "256"; "512"; " 1024"; "-768"]%string
  = [0; 0; 0; 0; 0; 0; 0].
Proof. vm_compute. reflexivity. Qed.

Lemma zero_in_long_byte z : zero_in_long z -> to_uchar (atoi z) = 0.
Proof.
  unfold zero_in_long, atoi.
  destruct (scan_signed (skip_spaces z)) as [[v rest]|]; [|reflexivity].
  intros [Hv Hz]. rewrite strtol_value_in_range by exact Hv.
  rewrite to_int_low_byte. exact Hz.
Qed.

(** The list filled by 88 identifiers after the 12 default MIDs. *)
Example full_list :
  set_wanted (chars "RINEX" ++ concat (repeat (chars ",1") 88)) WANTEDMsg_init
  = Done (RINEX_MIDS ++ repeat 1 88)
  /\ find_end (RINEX_MIDS ++ repeat 1 88) 0 WMSGSIZE = WMSGSIZE.
Proof. split; vm_compute; reflexivity. Qed.

(** C10 as stated does not hold. The identifier 9223372036854775808, a
    multiple of 256 beyond the range of long, is converted to LONG_MAX, whose
    low byte 255 is stored and kept, the position moving on; and when the list
    is full, at position WMSGSIZE, the 0 of the identifier "0" is stored past
    the end of WANTEDMsg. *)
Lemma zero_identifier_kept_or_stored_outside :
  ~ zero_identifier_dropped WANTEDMsg_init 12 (chars "9223372036854775808")
  /\ ~ zero_identifier_dropped (RINEX_MIDS ++ repeat 1 88) WMSGSIZE (chars "0").
Proof.
  split; intros H.
  - assert (named_zero (chars "9223372036854775808")) as Hz by (vm_compute; reflexivity).
    apply H in Hz. vm_compute in Hz. discriminate Hz.
  - assert (named_zero (chars "0")) as Hz by (vm_compute; reflexivity).
    apply H in Hz. vm_compute in Hz. discriminate Hz.
Qed.

Example beyond_long_is_kept :
  set_wanted (chars "RINEX,9223372036854775808") WANTEDMsg_init
  = Done (wanted_array (RINEX_MIDS ++ [255]))
  /\ set_wanted (chars "RINEX" ++ concat (repeat (chars ",1") 88) ++ chars ",0")
       WANTEDMsg_init
     = Fault (OutOfBounds WMSGSIZE).
Proof. split; vm_compute; reflexivity. Qed.

(** C10, amended: an identifier without a number, or with a number in the
    range of long that is a multiple of 256 (0 among them), is converted to
    the byte 0. While the list has room, an identifier converted to the byte
    0 is stored as a 0 at the insertion position and the position stays: the
    next identifier, if there is one, is stored over it, so that the list is
    built as if the identifier were not there; as the last identifier it
    leaves the 0 that ends the list at that position and nothing else
    changed. *)
Theorem zero_identifier_not_kept (W : list Z) (nextPos : nat) (z : list ascii) :
  (nextPos < WMSGSIZE)%nat -> to_uchar (atoi z) = 0 ->
  (forall tok, zero_in_long tok -> to_uchar (atoi tok) = 0)
  /\ add_token (W, nextPos) z = Done (<[nextPos := 0]> W, nextPos)
  /\ (forall t rest,
        add_tokens (W, nextPos) (z :: t :: rest) = add_tokens (W, nextPos) (t :: rest))
  /\ (exists W', add_tokens (W, nextPos) [z] = Done (W', nextPos)
                 /\ rd W' nextPos = 0
                 /\ forall i, i <> nextPos -> rd W' i = rd W i).
Proof.
  intros H Hz. pose proof (add_token_zero W nextPos z H Hz) as E.
  split; [exact zero_in_long_byte|]. split; [exact E|split].
  - intros t rest. cbn [add_tokens]. rewrite E. cbn [bind].
    rewrite !add_token_inside by exact H.
    rewrite list_insert_insert_eq. reflexivity.
  - exists (<[nextPos := 0]> W). cbn [add_tokens]. rewrite E. cbn [bind].
    split; [reflexivity|split].
    + apply rd_stored_zero.
    + intros i Hi. apply rd_insert_ne. congruence.
Qed.

Lemma zero_identifier_not_kept_witness :
  (12 < WMSGSIZE)%nat /\ to_uchar (atoi (chars "256")) = 0
  /\ add_tokens (WANTEDMsg_init, 12%nat) [chars "256"; chars "99"]
     = add_tokens (WANTEDMsg_init, 12%nat) [chars "99"].
Proof.
  split; [vm_compute; lia|]. split; [reflexivity|].
  destruct (zero_identifier_not_kept WANTEDMsg_init 12 (chars "256"))
    as (_ & _ & Hnext & _); [vm_compute; lia | reflexivity|].
  apply Hnext.
Defined.

(** The same on whole option values: identifiers that convert to 0 leave no
    trace in the list. *)
Example zero_identifiers_in_options :
  set_wanted (chars "RINEX,0,99") WANTEDMsg_init = set_wanted (chars "RINEX,99") WANTEDMsg_init
  /\ set_wanted (chars "RINEX,abc,99") WANTEDMsg_init = set_wanted (chars "RINEX,99") WANTEDMsg_init
  /\ set_wanted (chars "RINEX,99,256") WANTEDMsg_init = set_wanted (chars "RINEX,99") WANTEDMsg_init.
Proof. repeat split; vm_compute; reflexivity. Qed.

(** C6: the store of addWANTED comes before its test of the position. With
    the 12 default MIDs in place, 88 identifiers fill the list and the 89th is
    stored at index 100, past the end of WANTEDMsg. *)
Theorem addWANTED_stores_past_the_end :
  set_wanted (chars "RINEX" ++ concat (repeat (chars ",1") 89)) WANTEDMsg_init
  = Fault (OutOfBounds WMSGSIZE).
Proof. vm_compute. reflexivity. Qed.

(** Up to 88 identifiers the list is filled and nothing is stored outside. *)
Example addWANTED_fills_the_list :
  set_wanted (chars "RINEX" ++ concat (repeat (chars ",1") 88)) WANTEDMsg_init
  = Done (RINEX_MIDS ++ repeat 1 88).
Proof. vm_compute. reflexivity. Qed.

(** ** The checks on a decoded message *)

Lemma be16_bytes hi lo : is_byte hi -> is_byte lo -> be16 hi lo = 256 * hi + lo.
Proof.
  unfold is_byte, be16. intros Hhi Hlo.
  rewrite Z.shiftl_mul_pow2 by lia.
  assert (Z.land (hi * 2 ^ 8) lo = 0) as Hdisj.
  { apply Z.bits_inj'. intros n Hn.
    rewrite Z.land_spec, Z.bits_0.
    destruct (Z.lt_ge_cases n 8) as [Hlt|Hge].
    - rewrite Z.mul_pow2_bits_low by lia. reflexivity.
    - rewrite <- (Z.mod_small lo (2 ^ 8)) by lia.
      rewrite Z.mod_pow2_bits_high by lia. apply andb_false_r. }
  rewrite <- Z.lxor_lor by exact Hdisj.
  rewrite <- Z.add_nocarry_lxor by exact Hdisj. lia.
Qed.

Lemma payloadLen_range msg :
  0 <= be16 (rd msg 0) (rd msg 1) < 65536.
Proof.
  rewrite be16_bytes by apply rd_byte.
  pose proof (rd_byte msg 0). pose proof (rd_byte msg 1). unfold is_byte in *. lia.
Qed.

Lemma mask15 x : Z.land (to_uint x) 0x7FFF = x mod 32768.
Proof.
  unfold to_uint. change 0x7FFF with (Z.ones 15).
  rewrite Z.land_ones by lia.
  change (2 ^ 32) with (2 ^ 15 * 2 ^ 17). change 32768 with (2 ^ 15).
  rewrite Z.rem_mul_r by lia.
  rewrite Z.mul_comm, Z.mod_add by lia. apply Z.mod_mod. lia.
Qed.

Lemma checksum_loop_sum msg : forall k i acc,
  0 <= acc < 32768 ->
  checksum_loop msg i k acc
  = (acc + Zsum (map (fun j => rd msg (j + 2)) (seq i k))) mod 32768.
Proof.
  induction k as [|k IH]; intros i acc Hacc; cbn [checksum_loop seq map Zsum fold_right].
  - rewrite Z.add_0_r, Z.mod_small by exact Hacc. reflexivity.
  - rewrite mask15, IH by (apply Z.mod_pos_bound; lia).
    fold (Zsum (map (fun j => rd msg (j + 2)) (seq (S i) k))).
    rewrite Zplus_mod_idemp_l. f_equal. lia.
Qed.

Lemma reads_take l : forall k,
  (k <= length l)%nat -> map (rd l) (seq 0 k) = map to_uchar (take k l).
Proof.
  induction l as [|b l IH]; intros k Hk.
  - simpl in Hk. replace k with 0%nat by lia. reflexivity.
  - destruct k as [|k]; [reflexivity|].
    cbn [seq map take]. rewrite <- seq_shift, map_map.
    rewrite rd_head. f_equal.
    rewrite <- (IH k) by (simpl in Hk; lia).
    apply map_ext. intros j. apply rd_tail.
Qed.

Lemma payload_reads msg payloadLen :
  (Z.to_nat payloadLen + 2 <= length msg)%nat ->
  map (fun j => rd msg (j + 2)) (seq 0 (Z.to_nat payloadLen)) = payload_of msg payloadLen.
Proof.
  intros H. unfold payload_of.
  rewrite <- reads_take by (rewrite length_drop; lia).
  apply map_ext. intros j. rewrite rd_drop. f_equal. lia.
Qed.

Lemma Zsum_one_changed (f g : nat -> Z) (i : nat) :
  (forall j, j <> i -> g j = f j) ->
  forall k a, (a <= i < a + k)%nat ->
  Zsum (map g (seq a k)) = Zsum (map f (seq a k)) + (g i - f i).
Proof.
  intros Hother. induction k as [|k IH]; intros a Ha; [lia|].
  cbn [seq map Zsum fold_right].
  fold (Zsum (map g (seq (S a) k))). fold (Zsum (map f (seq (S a) k))).
  destruct (Nat.eq_dec a i) as [->|Hne].
  - assert (map g (seq (S i) k) = map f (seq (S i) k)) as ->.
    { apply map_ext_in. intros j Hj. apply in_seq in Hj. apply Hother. lia. }
    lia.
  - rewrite (IH (S a)) by lia. rewrite (Hother a Hne). lia.
Qed.

(** Where check_message gets through all its tests. *)
Lemma check_message_Checked msg nbytesRead payloadLen :
  check_message msg nbytesRead = Checked payloadLen ->
  (4 < nbytesRead < MSGSIZE)%nat
  /\ payloadLen = be16 (rd msg 0) (rd msg 1)
  /\ Z.of_nat nbytesRead = payloadLen + 4
  /\ checksum_loop msg 0 (Z.to_nat payloadLen) 0
     = be16 (rd msg (Z.to_nat payloadLen + 2)) (rd msg (Z.to_nat payloadLen + 3)).
Proof.
  unfold check_message. pose proof (payloadLen_range msg) as Hr.
  destruct (Nat.leb_spec MSGSIZE nbytesRead); [discriminate|].
  destruct (Nat.leb_spec nbytesRead 4); [discriminate|]. cbn [orb].
  destruct (Z.eqb_spec (Z.of_nat nbytesRead) (to_uint (be16 (rd msg 0) (rd msg 1) + 4)))
    as [E|_]; [|discriminate]. cbn [negb].
  match goal with |- context [negb (?a =? ?b)] => destruct (Z.eqb_spec a b) as [E'|_] end;
    [|discriminate].
  cbn [negb]. intros [= <-].
  unfold to_uint in E. rewrite Z.mod_small in E by lia.
  repeat split; [lia | lia | exact E | exact E'].
Qed.

Ltac verdict_cases :=
  repeat match goal with
         | |- _ /\ _ => split
         | |- _ <-> _ => split
         | |- _ -> _ => intros ?
         | H : _ /\ _ |- _ => destruct H
         | H : _ \/ _ |- _ => destruct H
         | H : exists _, _ |- _ => destruct H
         end;
  try discriminate; try lia; eauto.

(** C3: " No message data" is the verdict exactly for 4 bytes or fewer and
    for MSGSIZE = 2050 bytes or more; otherwise the length mismatch is the
    verdict exactly when the number of bytes is not the big-endian value of
    the first two bytes plus 4; and a message that gets to the checksum test
    has that value plus 4 bytes. *)
Theorem check_message_length (msg : list Z) (nbytesRead : nat) :
  let payloadLen := 256 * rd msg 0 + rd msg 1 in
  MSGSIZE = 2050%nat
  /\ (check_message msg nbytesRead = NoMessageData
      <-> (nbytesRead <= 4 \/ MSGSIZE <= nbytesRead)%nat)
  /\ ((exists p, check_message msg nbytesRead = PayloadLenMismatch p)
      <-> (4 < nbytesRead < MSGSIZE)%nat /\ Z.of_nat nbytesRead <> payloadLen + 4)
  /\ (check_message msg nbytesRead = PayloadLenMismatch payloadLen
      <-> (4 < nbytesRead < MSGSIZE)%nat /\ Z.of_nat nbytesRead <> payloadLen + 4)
  /\ (check_message msg nbytesRead = WrongChecksum
      \/ check_message msg nbytesRead = Checked payloadLen
      <-> (4 < nbytesRead < MSGSIZE)%nat /\ Z.of_nat nbytesRead = payloadLen + 4).
Proof.
  intros payloadLen. subst payloadLen.
  rewrite <- (be16_bytes (rd msg 0) (rd msg 1)) by apply rd_byte.
  pose proof (payloadLen_range msg) as Hr.
  set (payloadLen := be16 (rd msg 0) (rd msg 1)) in *.
  split; [reflexivity|].
  unfold check_message. fold payloadLen.
  unfold to_uint. rewrite (Z.mod_small (payloadLen + 4)) by lia.
  destruct (Nat.leb_spec MSGSIZE nbytesRead) as [Hbig|Hbig]; cbn [orb];
    [verdict_cases|].
  destruct (Nat.leb_spec nbytesRead 4) as [Hsmall|Hsmall]; [verdict_cases|].
  destruct (Z.eqb_spec (Z.of_nat nbytesRead) (payloadLen + 4)) as [E|E]; cbn [negb];
    [|verdict_cases].
  match goal with |- context [negb (?a =? ?b)] => destruct (a =? b) end; cbn [negb];
    verdict_cases.
Qed.

Lemma checksum_is_masked_sum msg payloadLen :
  (Z.to_nat payloadLen + 2 <= length msg)%nat ->
  checksum_loop msg 0 (Z.to_nat payloadLen) 0
  = Z.land (Zsum (payload_of msg payloadLen)) 0x7FFF.
Proof.
  intros H. rewrite checksum_loop_sum by lia.
  rewrite payload_reads by exact H. rewrite Z.add_0_l.
  change 0x7FFF with (Z.ones 15). rewrite Z.land_ones by lia. reflexivity.
Qed.

Lemma changed_sum_differs s d :
  -256 < d < 256 -> d <> 0 -> (s + d) mod 32768 <> s mod 32768.
Proof.
  intros Hd Hnz E.
  assert ((s + d - s) mod 32768 = 0) as H.
  { rewrite Zminus_mod, E, Z.sub_diag. reflexivity. }
  replace (s + d - s) with d in H by lia.
  pose proof (Z.div_mod d 32768 ltac:(lia)) as D. lia.
Qed.

(** C2: in a message that passes the checks the two bytes after the payload
    are, as a big-endian number, the sum of the payload bytes masked with
    0x7FFF; and the same message with one payload byte given another value
    fails with " Wrong checksum". *)
Theorem checksum_protects_payload (msg : list Z) (nbytesRead : nat) (payloadLen : Z) :
  length msg = MSGSIZE ->
  check_message msg nbytesRead = Checked payloadLen ->
  trailing_check msg payloadLen = Z.land (Zsum (payload_of msg payloadLen)) 0x7FFF
  /\ forall (i : nat) (v : Z),
       (i < Z.to_nat payloadLen)%nat -> to_uchar v <> rd msg (i + 2) ->
       check_message (<[(i + 2)%nat := v]> msg) nbytesRead = WrongChecksum.
Proof.
  intros Hlen Hok.
  destruct (check_message_Checked _ _ _ Hok) as (Hn & Hp & Hcount & Hsum).
  pose proof (payloadLen_range msg) as Hr. rewrite <- Hp in Hr.
  assert (Z.to_nat payloadLen + 4 = nbytesRead)%nat as Hnat by lia.
  assert (Z.to_nat payloadLen + 2 <= length msg)%nat as Hfit by lia.
  rewrite be16_bytes in Hsum by apply rd_byte.
  fold (trailing_check msg payloadLen) in Hsum.
  split.
  - rewrite <- Hsum. apply checksum_is_masked_sum. exact Hfit.
  - intros i v Hi Hv.
    set (msg' := <[(i + 2)%nat := v]> msg).
    assert (forall j, j <> (i + 2)%nat -> rd msg' j = rd msg j) as Hsame.
    { intros j Hj. apply rd_insert_ne. congruence. }
    assert (rd msg' (i + 2) = to_uchar v) as Hnew.
    { apply rd_insert_eq. lia. }
    unfold check_message.
    destruct (Nat.leb_spec MSGSIZE nbytesRead); [lia|].
    destruct (Nat.leb_spec nbytesRead 4); [lia|]. cbn [orb].
    rewrite (Hsame 0%nat), (Hsame 1%nat) by lia. rewrite <- Hp.
    unfold to_uint. rewrite (Z.mod_small (payloadLen + 4)) by lia.
    destruct (Z.eqb_spec (Z.of_nat nbytesRead) (payloadLen + 4)) as [_|]; [|lia].
    cbn [negb].
    rewrite !Hsame by lia.
    rewrite be16_bytes by apply rd_byte. fold (trailing_check msg payloadLen).
    rewrite <- Hsum, !checksum_loop_sum by lia. rewrite !Z.add_0_l.
    rewrite (Zsum_one_changed (fun j => rd msg (j + 2)) (fun j => rd msg' (j + 2)) i)
      by (try (intros j Hj; apply Hsame); lia).
    cbv beta. rewrite Hnew.
    match goal with |- context [negb (?a =? ?b)] => destruct (Z.eqb_spec a b) as [E|_] end;
      [|reflexivity].
    exfalso. revert E. apply changed_sum_differs.
    + pose proof (to_uchar_byte v). pose proof (rd_byte msg (i + 2)).
      unfold is_byte in *. lia.
    + lia.
Qed.

Lemma checksum_protects_payload_witness :
  length doc_msg = MSGSIZE
  /\ check_message doc_msg 22 = Checked 18
  /\ trailing_check doc_msg 18 = Z.land (Zsum (payload_of doc_msg 18)) 0x7FFF
  /\ check_message (<[2%nat := 52]> doc_msg) 22 = WrongChecksum.
Proof.
  assert (length doc_msg = MSGSIZE) as Hlen by reflexivity.
  assert (check_message doc_msg 22 = Checked 18) as Hok by (vm_compute; reflexivity).
  destruct (checksum_protects_payload doc_msg 22 18 Hlen Hok) as [Hsum Hmut].
  split; [exact Hlen|]. split; [exact Hok|]. split; [exact Hsum|].
  apply (Hmut 0%nat 52); [vm_compute; lia | vm_compute; discriminate].
Defined.

(** ** The time interval *)

Lemma cstr_before_NUL line rest : cstr (line ++ NUL :: rest) = cstr line.
Proof.
  induction line as [|c line IH]; cbn [app cstr].
  - reflexivity.
  - destruct (Ascii.eqb c NUL); [reflexivity|]. f_equal. exact IH.
Qed.

Lemma cstr_fgets_into buf line : cstr (fgets_into buf line) = cstr line.
Proof. apply cstr_before_NUL. Qed.

Lemma dt2time_fgets_into mktime now buf line :
  dt2time mktime now (fgets_into buf line) = dt2time mktime now line.
Proof. unfold dt2time. rewrite cstr_fgets_into. reflexivity. Qed.

Lemma checkInterval_fgets_into mktime now buf line fromT toT :
  checkInterval mktime now (fgets_into buf line) fromT toT
  = checkInterval mktime now line fromT toT.
Proof. unfold checkInterval. rewrite dt2time_fgets_into. reflexivity. Qed.

(** C7: dt2time gives -1 for a time tag it cannot convert, in particular
    when the six numbers cannot be scanned, and then checkInterval is false;
    for a time tag converted to an instant [tag], checkInterval is true
    exactly when fromT <= tag <= toT, both ends included. With an interval
    that main does not refuse, the equivalence holds for every time tag, the
    value -1 being before its start. *)
Theorem checkInterval_inclusive
    (mktime : tm -> Z) (now : tm) (timeTag : list ascii) (fromT toT : Z) :
  let tag := dt2time mktime now timeTag in
  (tag <> -1 ->
     (checkInterval mktime now timeTag fromT toT = true <-> fromT <= tag <= toT))
  /\ (tag = -1 -> checkInterval mktime now timeTag fromT toT = false)
  /\ (sscanf_dt (cstr timeTag) = None -> tag = -1)
  /\ (interval_refused fromT toT = false ->
      (checkInterval mktime now timeTag fromT toT = true <-> fromT <= tag <= toT)).
Proof.
  intros tag. unfold checkInterval. fold tag.
  split; [|split; [|split]].
  - intros Hne. destruct (Z.eqb_spec tag (-1)) as [|_]; [contradiction|].
    cbn [negb]. rewrite andb_true_iff, !Z.leb_le. reflexivity.
  - intros ->. reflexivity.
  - intros Hscan. subst tag. unfold dt2time. rewrite Hscan. reflexivity.
  - unfold interval_refused. rewrite !orb_false_iff, Z.ltb_ge. intros [[Hfrom _] _].
    destruct (Z.eqb_spec tag (-1)) as [E|_]; cbn [negb].
    + split; [discriminate | lia].
    + rewrite andb_true_iff, !Z.leb_le. reflexivity.
Qed.

Lemma checkInterval_inclusive_witness :
  let tag := dt2time mktime_utc noon_tm (chars doc_line) in
  tag <> -1
  /\ checkInterval mktime_utc noon_tm (chars doc_line) tag tag = true
  /\ checkInterval mktime_utc noon_tm (chars doc_line) (tag + 1) default_to = false
  /\ checkInterval mktime_utc noon_tm (chars "no time tag") default_from default_to = false.
Proof.
  intros tag.
  assert (tag <> -1) as Hne by (vm_compute; discriminate).
  destruct (checkInterval_inclusive mktime_utc noon_tm (chars doc_line) tag tag)
    as [Hin _].
  destruct (checkInterval_inclusive mktime_utc noon_tm (chars doc_line) (tag + 1) default_to)
    as [Hout _].
  destruct (checkInterval_inclusive mktime_utc noon_tm (chars "no time tag")
              default_from default_to) as (_ & Hbad & Hscan & _).
  split; [exact Hne|]. split; [|split].
  - apply (Hin Hne). fold tag. lia.
  - apply not_true_is_false. intros H. apply (Hout Hne) in H. fold tag in H. lia.
  - apply Hbad, Hscan. vm_compute. reflexivity.
Defined.

(** ** Decoded messages *)

Lemma decode_length line tail : forall k header nbytesRead msg,
  length (snd (decode line tail k header nbytesRead msg)) = length msg.
Proof.
  induction k as [|k IH]; intros header nbytesRead msg; cbn [decode]; [reflexivity|].
  destruct (header <? tail)%nat; [|reflexivity].
  destruct (sscanf_x _); [|reflexivity].
  rewrite IH. apply length_insert.
Qed.

(** ** The body of the loop *)

Section ExtractProperties.

Variable mktime : tm -> Z.
Variable localtime_now : tm.
Variable FILE : Type.
Variable fwrite : list Z -> FILE -> Z * FILE.
Variable WANTEDMsg : list Z.
Variables fromT toT : Z.

Let state := state FILE.
Let accept := accept_line mktime localtime_now FILE WANTEDMsg fromT toT.
Let process := process_line mktime localtime_now FILE fwrite WANTEDMsg fromT toT.
Let read := read_lines mktime localtime_now FILE fwrite WANTEDMsg fromT toT.

Lemma accept_line_outside (st : state) line :
  checkInterval mktime localtime_now line fromT toT = false ->
  accept st line
  = Done (logged FILE (TimeTagOutsideInterval (take 23 (fgets_into (GP2line _ st) line)))
            (read_into FILE st line), None).
Proof.
  intros H. unfold accept, accept_line. cbn [read_into GP2line].
  rewrite checkInterval_fgets_into, H. reflexivity.
Qed.

Lemma accept_line_no_header (st : state) line :
  checkInterval mktime localtime_now line fromT toT = true ->
  strstr (cstr line) (chars "A0 A2") = None ->
  accept st line = Fault InvalidPointer.
Proof.
  intros H Hh. unfold accept, accept_line. cbn [read_into GP2line].
  rewrite checkInterval_fgets_into, H, cstr_fgets_into, Hh. reflexivity.
Qed.

Lemma accept_line_no_tail (st : state) line header :
  checkInterval mktime localtime_now line fromT toT = true ->
  strstr (cstr line) (chars "A0 A2") = Some header ->
  strstr (drop (header + 5) (cstr line)) (chars "B0 B3") = None ->
  accept st line
  = Done (logged FILE (NoHeaderOrTailer (take 23 (fgets_into (GP2line _ st) line)))
            (read_into FILE st line), None).
Proof.
  intros H Hh Ht. unfold accept, accept_line. cbn [read_into GP2line].
  rewrite checkInterval_fgets_into, H, cstr_fgets_into, Hh, Ht. reflexivity.
Qed.

(** What a line that is not written leaves: one more message in the log,
    which is not about a write; a line to be written leaves the log as it
    is. Neither touches the count or the output file. *)
Lemma accept_line_effect (st st' : state) line r :
  accept st line = Done (st', r) ->
  nMessages _ st' = nMessages _ st /\ outFile _ st' = outFile _ st
  /\ match r with
     | None => exists d, log _ st' = log _ st ++ [d]
                         /\ count_written [d] = 0 /\ d <> CannotWrite
     | Some _ => log _ st' = log _ st
     end.
Proof.
  unfold accept, accept_line. cbn [read_into GP2line OSPmsg nMessages outFile log].
  destruct (negb _).
  { intros [= <- <-]. cbn. repeat split. eexists. repeat split. discriminate. }
  destruct (strstr _ _) as [header|]; [|discriminate].
  destruct (option_map _ _) as [tail|].
  2:{ intros [= <- <-]. cbn. repeat split. eexists. repeat split. discriminate. }
  destruct (decode _ _ _ _ _ _) as [nbytesRead msg].
  destruct (check_message msg nbytesRead) as [|p| |p].
  1-3: intros [= <- <-]; cbn; repeat split; eexists; repeat split; discriminate.
  destruct (wantedMsg _ _); intros [= <- <-]; cbn; repeat split.
  eexists. repeat split. discriminate.
Qed.

(** A line whose message is to be written has passed the checks of
    check_message, with the [payloadLen] handed on, and its MID is wanted. *)
Lemma accepted_line_passes_checks (st st' : state) line timeTag payloadLen :
  accept st line = Done (st', Some (timeTag, payloadLen)) ->
  length (OSPmsg _ st') = length (OSPmsg _ st)
  /\ wantedMsg WANTEDMsg (rd (OSPmsg _ st') 2) = true
  /\ exists nbytesRead, check_message (OSPmsg _ st') nbytesRead = Checked payloadLen.
Proof.
  unfold accept, accept_line. cbn [read_into GP2line OSPmsg nMessages outFile log].
  destruct (negb _); [discriminate|].
  destruct (strstr _ _) as [header|]; [|discriminate].
  destruct (option_map _ _) as [tail|]; [|discriminate].
  destruct (decode _ _ _ _ _ _) as [nbytesRead msg] eqn:Hd.
  pose proof (decode_length (cstr (fgets_into (GP2line _ st) line)) tail MSGSIZE
                (header + 6) 0 (OSPmsg _ st)) as Hlen.
  rewrite Hd in Hlen. cbn [snd] in Hlen.
  destruct (check_message msg nbytesRead) as [|p| |p] eqn:Hcheck.
  1-3: discriminate.
  destruct (wantedMsg WANTEDMsg (rd msg 2)) eqn:Hw; [|discriminate].
  intros [= <- <- <-]. cbn [OSPmsg].
  split; [exact Hlen|]. split; [exact Hw|]. exists nbytesRead. exact Hcheck.
Qed.

(** OSPmsg keeps its size. *)
Lemma accept_line_length (st st' : state) line r :
  accept st line = Done (st', r) ->
  length (OSPmsg _ st') = length (OSPmsg _ st).
Proof.
  unfold accept, accept_line. cbn [read_into GP2line OSPmsg nMessages outFile log].
  destruct (negb _); [intros [= <- <-]; reflexivity|].
  destruct (strstr _ _) as [header|]; [|discriminate].
  destruct (option_map _ _) as [tail|]; [|intros [= <- <-]; reflexivity].
  destruct (decode _ _ _ _ _ _) as [nbytesRead msg] eqn:Hd.
  pose proof (decode_length (cstr (fgets_into (GP2line _ st) line)) tail MSGSIZE
                (header + 6) 0 (OSPmsg _ st)) as Hlen.
  rewrite Hd in Hlen. cbn [snd] in Hlen.
  destruct (check_message msg nbytesRead) as [|p| |p].
  1-3: intros [= <- <-]; exact Hlen.
  destruct (wantedMsg WANTEDMsg (rd msg 2)); intros [= <- <-]; exact Hlen.
Qed.

Lemma process_line_length (st st' : state) line c :
  process st line = Done (st', c) ->
  length (OSPmsg _ st') = length (OSPmsg _ st).
Proof.
  unfold process, process_line. fold accept.
  destruct (accept st line) as [[st1 r]|] eqn:Ha; [|discriminate].
  pose proof (accept_line_length _ _ _ _ Ha) as Hlen.
  cbn [bind fst snd]. destruct r as [[timeTag payloadLen]|].
  - unfold write_message. destruct (fwrite _ _) as [written out].
    destruct (written =? _); intros [= <- <-]; exact Hlen.
  - intros [= <- <-]. exact Hlen.
Qed.

Lemma read_lines_length : forall inFile (st st' : state) c,
  read st inFile = Done (st', c) ->
  length (OSPmsg _ st') = length (OSPmsg _ st).
Proof.
  induction inFile as [|line rest IH]; intros st st' c; cbn [read read_lines].
  - intros [= <- <-]. reflexivity.
  - fold process.
    destruct (process st line) as [[st1 c1]|] eqn:Hp; [|discriminate].
    cbn [bind fst snd]. pose proof (process_line_length _ _ _ _ Hp) as E.
    destruct c1 as [|v].
    + intros H. apply IH in H. congruence.
    + intros [= <- <-]. exact E.
Qed.

(** The message of a line that is to be written, in an OSPmsg of MSGSIZE
    bytes: the two bytes after its payload hold the masked sum of the
    payload. *)
Lemma accepted_message_checksum (st st' : state) line timeTag payloadLen :
  length (OSPmsg _ st) = MSGSIZE ->
  accept st line = Done (st', Some (timeTag, payloadLen)) ->
  trailing_check (OSPmsg _ st') payloadLen
  = Z.land (Zsum (payload_of (OSPmsg _ st') payloadLen)) 0x7FFF.
Proof.
  intros Hsize Ha.
  destruct (accepted_line_passes_checks _ _ _ _ _ Ha) as (Hlen & _ & n & Hok).
  destruct (check_message_Checked _ _ _ Hok) as (Hn & Hp & Hcount & Hsum).
  pose proof (payloadLen_range (OSPmsg _ st')) as Hr. rewrite <- Hp in Hr.
  rewrite be16_bytes in Hsum by apply rd_byte.
  unfold trailing_check. rewrite <- Hsum.
  apply checksum_is_masked_sum. lia.
Qed.

Lemma count_written_app l1 l2 :
  count_written (l1 ++ l2) = count_written l1 + count_written l2.
Proof.
  induction l1 as [|d l1 IH]; cbn [app count_written]; [lia|].
  destruct d; lia.
Qed.

(** The count nMessages goes with the messages logged as written. *)
Lemma process_line_count (st st' : state) line c :
  process st line = Done (st', c) ->
  nMessages _ st' - count_written (log _ st')
  = nMessages _ st - count_written (log _ st).
Proof.
  unfold process, process_line. fold accept.
  destruct (accept st line) as [[st1 r]|] eqn:Ha; [|discriminate].
  destruct (accept_line_effect _ _ _ _ Ha) as (Hn & _ & Hlog).
  cbn [bind fst snd]. destruct r as [[timeTag payloadLen]|].
  - unfold write_message. destruct (fwrite _ _) as [written out].
    destruct (written =? _); intros [= <- <-];
      cbn [logged nMessages log]; rewrite count_written_app, Hlog, Hn;
      cbn [count_written]; lia.
  - destruct Hlog as (d & Hlog & Hd & _). intros [= <- <-].
    rewrite Hlog, count_written_app, Hd, Hn. lia.
Qed.

Lemma read_lines_count : forall inFile (st st' : state) c,
  read st inFile = Done (st', c) ->
  nMessages _ st' - count_written (log _ st')
  = nMessages _ st - count_written (log _ st).
Proof.
  induction inFile as [|line rest IH]; intros st st' c; cbn [read read_lines].
  - intros [= <- <-]. reflexivity.
  - fold process.
    destruct (process st line) as [[st1 c1]|] eqn:Hp; [|discriminate].
    cbn [bind fst snd]. pose proof (process_line_count _ _ _ _ Hp) as E.
    destruct c1 as [|v].
    + intros H. apply IH in H. lia.
    + intros [= <- <-]. exact E.
Qed.

Lemma read_lines_app : forall pre (st st1 : state) rest,
  read st pre = Done (st1, Next) ->
  read st (pre ++ rest) = read st1 rest.
Proof.
  induction pre as [|line pre IH]; intros st st1 rest; cbn [read read_lines app].
  - intros [= <-]. reflexivity.
  - fold process. destruct (process st line) as [[st' c]|]; [|discriminate].
    cbn [bind fst snd]. destruct c as [|v]; [|discriminate].
    apply IH.
Qed.

(** C1: a line inside the time interval that has no "A0 A2" does not get
    to the test header==NULL that would log and skip it: the search of the
    tail, strstr(header+5, "B0 B3"), comes first and reads through NULL+5.
    The line is not skipped and no line after it is processed. *)
Theorem missing_header_reads_invalid_pointer (st : state) line rest :
  checkInterval mktime localtime_now line fromT toT = true ->
  strstr (cstr line) (chars "A0 A2") = None ->
  process st line = Fault InvalidPointer
  /\ read st (line :: rest) = Fault InvalidPointer.
Proof.
  intros H Hh.
  assert (process st line = Fault InvalidPointer) as E.
  { unfold process, process_line. fold accept.
    rewrite accept_line_no_header by assumption. reflexivity. }
  split; [exact E|]. cbn [read read_lines]. fold process. rewrite E. reflexivity.
Qed.

(** C5, amended: the time interval is checked first, on the text of the
    line. A line for which checkInterval is false is logged as outside the
    interval and skipped, whatever its markers; a line inside the interval
    with its head marker and no tail marker after it is logged as having no
    header or tailer and skipped. In both cases the count, the output file
    and the decoded message stay as they were. *)
Theorem interval_checked_before_markers (st : state) line :
  let st' := read_into FILE st line in
  let timeTag := take 23 (GP2line _ st') in
  (checkInterval mktime localtime_now line fromT toT = false ->
     process st line = Done (logged FILE (TimeTagOutsideInterval timeTag) st', Next))
  /\ (checkInterval mktime localtime_now line fromT toT = true ->
      forall header,
        strstr (cstr line) (chars "A0 A2") = Some header ->
        strstr (drop (header + 5) (cstr line)) (chars "B0 B3") = None ->
        process st line = Done (logged FILE (NoHeaderOrTailer timeTag) st', Next)).
Proof.
  intros st' timeTag. split.
  - intros H. unfold process, process_line. fold accept.
    rewrite accept_line_outside by exact H. reflexivity.
  - intros H header Hh Ht. unfold process, process_line. fold accept.
    rewrite (accept_line_no_tail st line header) by assumption. reflexivity.
Qed.

(** C4: when the lines [pre] have been processed and the message of the
    next line is to be written, a write for which fwrite returns another
    number than the payloadLen + 2 bytes asked for ends the extraction: the
    lines after it are not read, and the value returned is
    - n - 4 < 0, with n the number of messages written before. *)
Theorem short_write_ends_extraction
    (pre : list (list ascii)) line (post : list (list ascii)) (out : FILE)
    (st1 st1' : state) timeTag payloadLen written out' :
  read (initial FILE out) pre = Done (st1, Next) ->
  accept st1 line = Done (st1', Some (timeTag, payloadLen)) ->
  fwrite (frame (OSPmsg _ st1') payloadLen) (outFile _ st1') = (written, out') ->
  written <> to_uint (payloadLen + 2) ->
  let n := count_written (log _ st1) in
  exists st2,
    extractMsgs mktime localtime_now FILE fwrite WANTEDMsg
      (pre ++ line :: post) fromT toT out = Done (st2, - n - 4)
    /\ - n - 4 < 0
    /\ nMessages _ st2 = n
    /\ log _ st2 = log _ st1 ++ [CannotWrite]
    /\ outFile _ st2 = out'.
Proof.
  intros Hpre Hacc Hw Hshort n.
  pose proof (read_lines_count _ _ _ _ Hpre) as Hcount.
  cbn [initial nMessages log count_written] in Hcount.
  destruct (accept_line_effect _ _ _ _ Hacc) as (Hn & _ & Hlog).
  assert (0 <= n) as Hpos.
  { subst n. clear. induction (log _ st1) as [|d l IH]; cbn [count_written]; [lia|].
    destruct d; lia. }
  eexists. unfold extractMsgs. fold read.
  rewrite (read_lines_app pre _ st1) by exact Hpre.
  cbn [read read_lines]. unfold process_line.
  fold accept. rewrite Hacc. cbn [bind fst snd].
  unfold write_message. rewrite Hw.
  destruct (Z.eqb_spec written (to_uint (payloadLen + 2))) as [E|_]; [contradiction|].
  cbn [bind fst snd logged nMessages log outFile].
  rewrite Hn, Hlog.
  replace (nMessages _ st1) with n by (subst n; lia).
  repeat split. lia.
Qed.

End ExtractProperties.

(** ** The program on the documented line *)

Lemma missing_header_reads_invalid_pointer_witness :
  checkInterval mktime_utc noon_tm (chars headless_line) default_from default_to = true
  /\ strstr (cstr (chars headless_line)) (chars "A0 A2") = None
  /\ run_utc WANTEDMsg_init [headless_line; doc_line] default_from default_to
       (mk_volume 1000 []) = Fault InvalidPointer.
Proof.
  assert (checkInterval mktime_utc noon_tm (chars headless_line) default_from default_to = true)
    as Hin by (vm_compute; reflexivity).
  assert (strstr (cstr (chars headless_line)) (chars "A0 A2") = None)
    as Hh by (vm_compute; reflexivity).
  split; [exact Hin|]. split; [exact Hh|].
  destruct (missing_header_reads_invalid_pointer mktime_utc noon_tm volume fwrite_volume
              WANTEDMsg_init default_from default_to
              (initial volume (mk_volume 1000 [])) (chars headless_line) [chars doc_line]
              Hin Hh) as [_ E].
  unfold run_utc, extractMsgs.
  change (map chars [headless_line; doc_line]) with [chars headless_line; chars doc_line].
  rewrite E. reflexivity.
Defined.

(** The documented line without its tail, read with an interval that starts
    in 2015: it is logged as outside the interval, and that is all. *)
Example tailless_line_outside_interval :
  missing_marker (chars tailless_line) = true
  /\ final_log (process_line mktime_utc noon_tm volume fwrite_volume WANTEDMsg_init
                  from_2015 default_to (initial volume (mk_volume 1000 []))
                  (chars tailless_line))
     = Some [TimeTagOutsideInterval (chars "29/10/2014 20:31:08.942")].
Proof. split; vm_compute; reflexivity. Qed.

(** C5 as stated does not hold: on that line the extraction fails, and the
    line is not logged as having no header or tailer, the time interval
    having been looked at first. *)
Lemma missing_tail_logged_as_outside_interval :
  ~ extraction_reported_first
      (process_line mktime_utc noon_tm volume fwrite_volume WANTEDMsg_init
         from_2015 default_to (initial volume (mk_volume 1000 []))
         (chars tailless_line))
      (chars tailless_line).
Proof.
  destruct tailless_line_outside_interval as [Hmiss Hlog].
  intros H. destruct (H Hmiss) as (st' & timeTag & E & Hlast).
  rewrite E in Hlog. cbn [final_log] in Hlog.
  injection Hlog as Hlog. rewrite Hlog in Hlast. discriminate Hlast.
Qed.

Lemma interval_checked_before_markers_witness :
  checkInterval mktime_utc noon_tm (chars tailless_line) from_2015 default_to = false
  /\ checkInterval mktime_utc noon_tm (chars tailless_line) default_from default_to = true
  /\ final_log (process_line mktime_utc noon_tm volume fwrite_volume WANTEDMsg_init
                  default_from default_to (initial volume (mk_volume 1000 []))
                  (chars tailless_line))
     = Some [NoHeaderOrTailer (chars "29/10/2014 20:31:08.942")].
Proof.
  assert (checkInterval mktime_utc noon_tm (chars tailless_line) default_from default_to = true)
    as Hin by (vm_compute; reflexivity).
  split; [vm_compute; reflexivity|]. split; [exact Hin|].
  destruct (interval_checked_before_markers mktime_utc noon_tm volume fwrite_volume
              WANTEDMsg_init default_from default_to
              (initial volume (mk_volume 1000 [])) (chars tailless_line)) as [_ H].
  rewrite (H Hin 28%nat) by (vm_compute; reflexivity).
  vm_compute. reflexivity.
Defined.

Example three_lines_one_write :
  option_map snd
    (match run_utc WANTED_ALL three_lines default_from default_to (mk_volume 30 []) with
     | Done r => Some r
     | Fault _ => None
     end) = Some (-5)
  /\ final_log (run_utc WANTED_ALL three_lines default_from default_to (mk_volume 30 []))
     = Some [WrittenMID (chars "29/10/2014 20:31:08.942") 51; CannotWrite].
Proof. split; vm_compute; reflexivity. Qed.

(** A volume with room for 30 bytes takes the 20 bytes of one message and
    not those of the next. *)
Lemma short_write_ends_extraction_witness :
  exists st2,
    run_utc WANTED_ALL three_lines default_from default_to (mk_volume 30 [])
    = Done (st2, -5)
    /\ nMessages volume st2 = 1
    /\ content (outFile volume st2) = frame doc_msg 18 ++ take 10 (frame doc_msg 18).
Proof.
  edestruct (short_write_ends_extraction mktime_utc noon_tm volume fwrite_volume
               WANTED_ALL default_from default_to
               [chars doc_line] (chars doc_line) [chars doc_line] (mk_volume 30 []))
    as (st2 & Hrun & _ & Hn & _ & Hout).
  - vm_compute. reflexivity.
  - vm_compute. reflexivity.
  - vm_compute. reflexivity.
  - vm_compute. discriminate.
  - exists st2. split; [exact Hrun|]. split; [exact Hn|].
    rewrite Hout. vm_compute. reflexivity.
Defined.

(** * Further properties of the code *)

(** ** wantedMsg and the list that main logs *)

Lemma wanted_scan_found W mid : forall k i,
  wanted_scan W mid i k = true
  <-> exists j, (i <= j < i + k)%nat /\ rd W j = mid
                /\ forall j', (i <= j' <= j)%nat -> rd W j' <> 0.
Proof.
  induction k as [|k IH]; intros i; cbn [wanted_scan].
  - split; [discriminate | intros (j & Hj & _); lia].
  - destruct (Z.eqb_spec (rd W i) 0) as [Hz|Hnz].
    + split; [discriminate|]. intros (j & Hj & _ & Hall).
      exfalso. apply (Hall i); [lia | exact Hz].
    + destruct (Z.eqb_spec (rd W i) mid) as [Hm|Hm].
      * split; [intros _|reflexivity].
        exists i. split; [lia|]. split; [exact Hm|].
        intros j' Hj'. replace j' with i by lia. exact Hnz.
      * rewrite IH. split.
        -- intros (j & Hj & Hjm & Hall). exists j. split; [lia|]. split; [exact Hjm|].
           intros j' Hj'. destruct (Nat.eq_dec j' i) as [->|]; [exact Hnz|].
           apply Hall. lia.
        -- intros (j & Hj & Hjm & Hall). exists j.
           assert (j <> i) by congruence.
           split; [lia|]. split; [exact Hjm|]. intros j' Hj'. apply Hall. lia.
Qed.

(** X1: wantedMsg on any array: a MID is wanted exactly when the first entry
    is 0, or when the MID is at an index below WMSGSIZE with no 0 entry at or
    before it. Entries after the first 0, and a MID equal to an entry that
    follows a 0, do not count. *)
Theorem wantedMsg_first_run (W : list Z) (mid : Z) :
  wantedMsg W mid = true
  <-> rd W 0 = 0
      \/ exists i, (i < WMSGSIZE)%nat /\ rd W i = mid
                   /\ forall j, (j <= i)%nat -> rd W j <> 0.
Proof.
  unfold wantedMsg. destruct (Z.eqb_spec (rd W 0) 0) as [Hz|Hnz].
  - split; [intros _; left; exact Hz | reflexivity].
  - rewrite wanted_scan_found. split.
    + intros (j & Hj & Hm & Hall). right. exists j. split; [lia|]. split; [exact Hm|].
      intros j' Hj'. apply Hall. lia.
    + intros [Hz|(i & Hi & Hm & Hall)]; [contradiction|].
      exists i. split; [lia|]. split; [exact Hm|]. intros j' Hj'. apply Hall. lia.
Qed.

Lemma wanted_scan_listed W mid : forall k i,
  wanted_scan W mid i k = true <-> In mid (listed_from W i k).
Proof.
  induction k as [|k IH]; intros i; cbn [wanted_scan listed_from].
  - split; [discriminate | intros []].
  - destruct (Z.eqb_spec (rd W i) 0) as [Hz|Hnz].
    + split; [discriminate | intros []].
    + destruct (Z.eqb_spec (rd W i) mid) as [Hm|Hm].
      * split; [intros _; left; exact Hm | reflexivity].
      * rewrite IH. split; [intros H; right; exact H|].
        intros [H|H]; [contradiction | exact H].
Qed.

(** X2: the list that main logs is the list wantedMsg goes by: when "ALL" is
    logged every MID is wanted, otherwise the wanted MIDs are the numbers
    logged. *)
Theorem logged_list_is_wanted (W : list Z) (mid : Z) :
  wantedMsg W mid = true
  <-> match wanted_listing W with
      | None => True
      | Some l => In mid l
      end.
Proof.
  unfold wantedMsg, wanted_listing. destruct (rd W 0 =? 0).
  - split; [intros _; exact I | reflexivity].
  - apply wanted_scan_listed.
Qed.

(** ** addWANTED on a wanted list *)

Lemma find_end_drop : forall k W i,
  find_end W i k = (i + find_end (drop i W) 0 k)%nat.
Proof.
  induction k as [|k IH]; intros W i; cbn [find_end]; [lia|].
  rewrite rd_drop, Nat.add_0_r.
  destruct (rd W i =? 0); [lia|].
  rewrite (IH W (S i)), (IH (drop i W) 1%nat), drop_drop.
  replace (i + 1)%nat with (S i) by lia. lia.
Qed.

Lemma find_end_run l : forall rest k,
  Forall nonzero_byte l -> (length l <= k)%nat ->
  find_end (l ++ rest) 0 k = (length l + find_end rest 0 (k - length l))%nat.
Proof.
  induction l as [|b l IH]; intros rest k Hl Hk.
  - cbn [app length]. rewrite Nat.sub_0_r. reflexivity.
  - destruct k as [|k]; [simpl in Hk; lia|].
    inversion Hl as [|? ? [Hb Hnz] Hl']; subst.
    cbn [find_end app]. rewrite rd_head, (to_uchar_of_byte b Hb).
    destruct (Z.eqb_spec b 0) as [|_]; [contradiction|].
    rewrite find_end_drop. cbn [drop]. rewrite drop_0.
    rewrite IH by (try assumption; simpl in Hk; lia).
    cbn [length]. replace (S k - S (length l))%nat with (k - length l)%nat by lia. lia.
Qed.

Lemma find_end_wanted_array l :
  Forall nonzero_byte l -> (length l <= WMSGSIZE)%nat ->
  find_end (wanted_array l) 0 WMSGSIZE = length l.
Proof.
  intros Hl Hk. unfold wanted_array. rewrite find_end_run by assumption.
  destruct (WMSGSIZE - length l)%nat; cbn [repeat find_end]; [lia|].
  rewrite rd_head. change (to_uchar 0 =? 0) with true. cbv iota. lia.
Qed.

Lemma find_end_nonzero W : forall k i j,
  (i <= j < find_end W i k)%nat -> rd W j <> 0.
Proof.
  induction k as [|k IH]; intros i j; cbn [find_end]; [lia|].
  destruct (Z.eqb_spec (rd W i) 0) as [|Hnz]; [lia|].
  intros Hj. destruct (Nat.eq_dec j i) as [->|]; [exact Hnz|].
  apply (IH (S i)). lia.
Qed.

Lemma find_end_reaches W : forall k i j,
  (i <= j < i + k)%nat -> (forall j', (i <= j' <= j)%nat -> rd W j' <> 0) ->
  (j < find_end W i k)%nat.
Proof.
  induction k as [|k IH]; intros i j Hj Hall; cbn [find_end]; [lia|].
  destruct (Z.eqb_spec (rd W i) 0) as [Hz|_].
  - exfalso. apply (Hall i); [lia | exact Hz].
  - destruct (Nat.eq_dec j i) as [->|].
    + clear. revert i. induction k as [|k IH]; intros i; cbn [find_end]; [lia|].
      destruct (rd W (S i) =? 0); [lia|]. specialize (IH (S i)). lia.
    + apply IH; [lia|]. intros j' Hj'. apply Hall. lia.
Qed.

Lemma identifiers_cons ptok toks :
  identifiers (ptok :: toks)
  = if negb (to_uchar (atoi ptok) =? 0)
    then to_uchar (atoi ptok) :: identifiers toks
    else identifiers toks.
Proof. reflexivity. Qed.

Lemma identifiers_nonzero toks : Forall nonzero_byte (identifiers toks).
Proof.
  induction toks as [|ptok toks IH]; [constructor|].
  rewrite identifiers_cons.
  destruct (Z.eqb_spec (to_uchar (atoi ptok)) 0) as [|Hnz]; cbn [negb]; [exact IH|].
  constructor; [|exact IH]. split; [apply to_uchar_byte | exact Hnz].
Qed.

(** With room left for them, the identifiers are put after the list. *)
Lemma add_tokens_room : forall toks l m,
  (length l + m = WMSGSIZE)%nat -> (length (identifiers toks) < m)%nat ->
  add_tokens (l ++ repeat 0 m, length l) toks
  = Done ((l ++ identifiers toks) ++ repeat 0 (m - length (identifiers toks)),
          (length l + length (identifiers toks))%nat).
Proof.
  induction toks as [|ptok toks IH]; intros l m Hm Hroom.
  - cbn [identifiers map List.filter add_tokens length].
    rewrite app_nil_r, Nat.sub_0_r, Nat.add_0_r. reflexivity.
  - rewrite identifiers_cons in *. cbn [add_tokens].
    destruct m as [|m]; [lia|].
    rewrite add_token_inside by lia.
    rewrite rd_insert_eq by (rewrite length_app, repeat_length; lia).
    rewrite to_uchar_idem.
    rewrite insert_app_r_alt by lia. rewrite Nat.sub_diag. cbn [repeat].
    destruct (Z.eqb_spec (to_uchar (atoi ptok)) 0) as [Hz|Hnz]; cbn [negb bind] in *.
    + rewrite Hz. change (<[0%nat := 0]> (0 :: repeat 0 m)) with (repeat 0 (S m)).
      apply IH; assumption.
    + change (<[0%nat := to_uchar (atoi ptok)]> (0 :: repeat 0 m))
        with ([to_uchar (atoi ptok)] ++ repeat 0 m).
      rewrite app_assoc.
      replace (S (length l)) with (length (l ++ [to_uchar (atoi ptok)]))
        by (rewrite length_app; cbn [length]; lia).
      cbn [length] in Hroom.
      rewrite IH by (try rewrite length_app; cbn [length]; lia).
      rewrite <- (app_assoc l [to_uchar (atoi ptok)] (identifiers toks)).
      rewrite length_app. cbn [app length].
      replace (S m - S (length (identifiers toks)))%nat
        with (m - length (identifiers toks))%nat by lia.
      replace (length l + 1 + length (identifiers toks))%nat
        with (length l + S (length (identifiers toks)))%nat by lia.
      reflexivity.
Qed.

(** With more identifiers than room, one is stored past the end. *)
Lemma add_tokens_no_room : forall toks l m,
  (length l + m = WMSGSIZE)%nat -> (m < length (identifiers toks))%nat ->
  add_tokens (l ++ repeat 0 m, length l) toks = Fault (OutOfBounds WMSGSIZE).
Proof.
  induction toks as [|ptok toks IH]; intros l m Hm Hroom.
  - cbn in Hroom. lia.
  - cbn [add_tokens]. destruct m as [|m].
    + replace (length l) with WMSGSIZE by lia. rewrite add_token_outside. reflexivity.
    + rewrite identifiers_cons in Hroom.
      rewrite add_token_inside by lia.
      rewrite rd_insert_eq by (rewrite length_app, repeat_length; lia).
      rewrite to_uchar_idem.
      rewrite insert_app_r_alt by lia. rewrite Nat.sub_diag. cbn [repeat].
      destruct (Z.eqb_spec (to_uchar (atoi ptok)) 0) as [Hz|Hnz]; cbn [negb bind] in *.
      * rewrite Hz. change (<[0%nat := 0]> (0 :: repeat 0 m)) with (repeat 0 (S m)).
        apply IH; assumption.
      * change (<[0%nat := to_uchar (atoi ptok)]> (0 :: repeat 0 m))
          with ([to_uchar (atoi ptok)] ++ repeat 0 m).
        rewrite app_assoc.
        replace (S (length l)) with (length (l ++ [to_uchar (atoi ptok)]))
          by (rewrite length_app; cbn [length]; lia).
        cbn [length] in Hroom.
        apply IH; [rewrite length_app; cbn [length]; lia | lia].
Qed.

(** X3: addWANTED on a wanted list [l] (non-zero bytes, then zeros): when the
    list is shorter than 300 characters and its identifiers leave at least
    one entry free, they are put after [l] in their order, duplicates
    included and those converting to 0 left out; the wanted MIDs are then the
    members of the longer list. *)
Theorem addWANTED_appends (midList : list ascii) (l : list Z) :
  let ids := identifiers (strtok_all (cstr midList)) in
  Forall nonzero_byte l ->
  (length (cstr midList) < 300)%nat ->
  (length l + length ids < WMSGSIZE)%nat ->
  addWANTED midList (wanted_array l) = Done (wanted_array (l ++ ids))
  /\ forall mid, wantedMsg (wanted_array (l ++ ids)) mid = true
                 <-> l ++ ids = [] \/ In mid (l ++ ids).
Proof.
  intros ids Hl Hshort Hroom. subst ids. split.
  - unfold addWANTED. rewrite find_end_wanted_array by (try assumption; lia).
    apply Nat.ltb_lt in Hshort. rewrite Hshort.
    unfold wanted_array. rewrite add_tokens_room by lia.
    cbn [bind fst]. rewrite length_app.
    do 3 f_equal. lia.
  - intros mid. unfold wanted_array.
    destruct (WMSGSIZE - length (l ++ identifiers (strtok_all (cstr midList))))%nat
      as [|n] eqn:E;
      [rewrite length_app in E; lia|].
    cbn [repeat]. apply wantedMsg_members.
    + apply Forall_app. split; [exact Hl | apply identifiers_nonzero].
    + rewrite length_app. lia.
Qed.

Lemma addWANTED_appends_witness :
  addWANTED (chars "99;abc,7:7") (wanted_array RINEX_MIDS)
  = Done (wanted_array (RINEX_MIDS ++ [99; 7; 7])).
Proof.
  apply (addWANTED_appends (chars "99;abc,7:7") RINEX_MIDS).
  - exact RINEX_MIDS_nonzero.
  - vm_compute. lia.
  - vm_compute. lia.
Defined.

(** X4: on a wanted list [l], a list of identifiers shorter than 300
    characters with more identifiers than [l] leaves free entries makes
    addWANTED store at index WMSGSIZE, past the end of WANTEDMsg. *)
Theorem addWANTED_overflows (midList : list ascii) (l : list Z) :
  Forall nonzero_byte l ->
  (length l <= WMSGSIZE)%nat ->
  (length (cstr midList) < 300)%nat ->
  (WMSGSIZE < length l + length (identifiers (strtok_all (cstr midList))))%nat ->
  addWANTED midList (wanted_array l) = Fault (OutOfBounds WMSGSIZE).
Proof.
  intros Hl Hle Hshort Hmany. unfold addWANTED.
  rewrite find_end_wanted_array by assumption.
  apply Nat.ltb_lt in Hshort. rewrite Hshort.
  unfold wanted_array. rewrite add_tokens_no_room by lia. reflexivity.
Qed.

Lemma addWANTED_overflows_witness :
  addWANTED (concat (repeat (chars "1,") 89)) (wanted_array RINEX_MIDS)
  = Fault (OutOfBounds WMSGSIZE).
Proof.
  apply (addWANTED_overflows (concat (repeat (chars "1,") 89)) RINEX_MIDS).
  - exact RINEX_MIDS_nonzero.
  - vm_compute. lia.
  - vm_compute. lia.
  - vm_compute. lia.
Defined.

Lemma add_tokens_keeps : forall toks W p W' p',
  add_tokens (W, p) toks = Done (W', p') ->
  (p <= p')%nat /\ length W' = length W
  /\ forall i, (i < p)%nat -> rd W' i = rd W i.
Proof.
  induction toks as [|ptok toks IH]; intros W p W' p'; cbn [add_tokens].
  - intros [= <- <-]. repeat split. lia.
  - unfold add_token, store. destruct (p <? WMSGSIZE)%nat; [|discriminate].
    cbn [bind andb]. intros H. apply IH in H. destruct H as (Hp & Hlen & Hrd).
    rewrite length_insert in Hlen. split; [|split; [exact Hlen|]].
    + destruct (negb _) in Hp; lia.
    + intros i Hi. rewrite Hrd by (destruct (negb _); lia).
      apply rd_insert_ne. lia.
Qed.

(** What is wanted by a list that is not empty stays wanted when the entries
    before its end stay. *)
Lemma wanted_kept W W' mid :
  (forall i, (i < find_end W 0 WMSGSIZE)%nat -> rd W' i = rd W i) ->
  rd W 0 <> 0 -> wantedMsg W mid = true -> wantedMsg W' mid = true.
Proof.
  intros Hkeep Hnz. unfold wantedMsg.
  assert (0 < find_end W 0 WMSGSIZE)%nat as Hpos.
  { apply find_end_reaches; [unfold WMSGSIZE; lia|].
    intros j' Hj'. replace j' with 0%nat by lia. exact Hnz. }
  rewrite (Hkeep 0%nat Hpos).
  destruct (Z.eqb_spec (rd W 0) 0) as [|_]; [contradiction|].
  rewrite !wanted_scan_found. intros (j & Hj & Hm & Hall).
  assert (j < find_end W 0 WMSGSIZE)%nat as Hin by (apply find_end_reaches; assumption).
  exists j. split; [exact Hj|]. split.
  - rewrite Hkeep by exact Hin. exact Hm.
  - intros j' Hj'. rewrite Hkeep by lia. apply Hall. exact Hj'.
Qed.

Lemma addWANTED_keeps midList W W' :
  addWANTED midList W = Done W' ->
  length W' = length W
  /\ forall i, (i < find_end W 0 WMSGSIZE)%nat -> rd W' i = rd W i.
Proof.
  unfold addWANTED. destruct (_ <? 300)%nat; [|discriminate].
  destruct (add_tokens _ _) as [[W1 p1]|] eqn:E; [|discriminate].
  cbn [bind fst]. intros [= <-].
  destruct (add_tokens_keeps _ _ _ _ _ E) as (_ & Hlen & Hrd). split; assumption.
Qed.

(** X5: addWANTED on any array leaves the entries before the first 0 as they
    are and the array at its size; on a list that is not empty, every MID
    that was wanted is still wanted afterwards. *)
Theorem addWANTED_only_adds (midList : list ascii) (W W' : list Z) :
  addWANTED midList W = Done W' ->
  length W' = length W
  /\ (forall i, (i < find_end W 0 WMSGSIZE)%nat -> rd W' i = rd W i)
  /\ (rd W 0 <> 0 -> forall mid, wantedMsg W mid = true -> wantedMsg W' mid = true).
Proof.
  intros H. destruct (addWANTED_keeps _ _ _ H) as [Hlen Hrd].
  split; [exact Hlen|]. split; [exact Hrd|].
  intros Hnz mid. apply wanted_kept; assumption.
Qed.

Lemma addWANTED_only_adds_witness :
  wantedMsg (wanted_array (RINEX_MIDS ++ [99])) 56 = true.
Proof.
  assert (addWANTED (chars "99") WANTEDMsg_init = Done (wanted_array (RINEX_MIDS ++ [99])))
    as H by (vm_compute; reflexivity).
  destruct (addWANTED_only_adds (chars "99") WANTEDMsg_init _ H) as (_ & _ & Hw).
  apply Hw; [vm_compute; discriminate | vm_compute; reflexivity].
Defined.

Lemma chars_eqb_eq a : forall b, chars_eqb a b = true <-> a = b.
Proof.
  induction a as [|x a IH]; intros [|y b]; cbn [chars_eqb];
    try (split; [discriminate | discriminate]); [tauto|].
  rewrite andb_true_iff, Ascii.eqb_eq, IH. split.
  - intros [-> ->]. reflexivity.
  - intros [= -> ->]. split; reflexivity.
Qed.

(** X6: whatever the value of option WMSG other than "ALL", the list that
    main sets from the initial one still has the twelve default MIDs wanted,
    also when the value is a plain list without "RINEX"; and it does not make
    every MID wanted: the MID 0 is not. *)
Theorem set_wanted_keeps_defaults (s : list ascii) (W' : list Z) :
  set_wanted s WANTEDMsg_init = Done W' ->
  s <> chars "ALL" ->
  (forall mid, In mid RINEX_MIDS -> wantedMsg W' mid = true)
  /\ wantedMsg W' 0 = false.
Proof.
  intros Hset Hs.
  assert (forall mid, In mid RINEX_MIDS -> wantedMsg WANTEDMsg_init mid = true) as Hinit.
  { intros mid Hmid. change WANTEDMsg_init with (RINEX_MIDS ++ 0 :: repeat 0 87).
    apply wantedMsg_members; [exact RINEX_MIDS_nonzero | vm_compute; lia | right; exact Hmid]. }
  assert (rd WANTEDMsg_init 0 <> 0) as Hnz by (vm_compute; discriminate).
  assert (rd W' 0 = rd WANTEDMsg_init 0
          /\ forall mid, wantedMsg WANTEDMsg_init mid = true -> wantedMsg W' mid = true)
    as [H0 Hkept].
  { unfold set_wanted in Hset.
    destruct (chars_eqb s (chars "ALL")) eqn:E; [apply chars_eqb_eq in E; contradiction|].
    destruct (chars_eqb s (chars "RINEX")); [injection Hset as <-; tauto|].
    assert (exists midList, addWANTED midList WANTEDMsg_init = Done W') as [midList Ha]
      by (destruct (starts_with _ _); eauto).
    destruct (addWANTED_keeps _ _ _ Ha) as [_ Hrd]. split.
    - apply Hrd. vm_compute. lia.
    - intros mid. apply wanted_kept; assumption. }
  split.
  - intros mid Hmid. apply Hkept, Hinit, Hmid.
  - unfold wantedMsg. rewrite H0.
    destruct (Z.eqb_spec (rd WANTEDMsg_init 0) 0) as [|_]; [contradiction|].
    apply wanted_scan_zero.
Qed.

Lemma set_wanted_keeps_defaults_witness :
  wantedMsg (wanted_array (RINEX_MIDS ++ [41; 99])) 56 = true.
Proof.
  assert (set_wanted (chars "41,99") WANTEDMsg_init
          = Done (wanted_array (RINEX_MIDS ++ [41; 99]))) as H by (vm_compute; reflexivity).
  apply (set_wanted_keeps_defaults (chars "41,99") _ H).
  - vm_compute. discriminate.
  - vm_compute. tauto.
Defined.

(** ** What check_message looks at, and what it lets through *)

Lemma check_message_prefix msg msg' nbytesRead :
  (forall i, (i < nbytesRead)%nat -> rd msg i = rd msg' i) ->
  check_message msg nbytesRead = check_message msg' nbytesRead.
Proof.
  intros Hsame. unfold check_message.
  destruct (Nat.leb_spec MSGSIZE nbytesRead) as [|Hbig]; [reflexivity|].
  destruct (Nat.leb_spec nbytesRead 4) as [|Hsmall]; [reflexivity|]. cbn [orb].
  rewrite <- (Hsame 0%nat), <- (Hsame 1%nat) by lia.
  pose proof (payloadLen_range msg) as Hr.
  set (payloadLen := be16 (rd msg 0) (rd msg 1)) in *.
  unfold to_uint. rewrite (Z.mod_small (payloadLen + 4)) by lia.
  destruct (Z.eqb_spec (Z.of_nat nbytesRead) (payloadLen + 4)) as [E|_]; [|reflexivity].
  cbn [negb].
  rewrite <- (Hsame (Z.to_nat payloadLen + 2)%nat), <- (Hsame (Z.to_nat payloadLen + 3)%nat)
    by lia.
  rewrite !checksum_loop_sum by lia.
  assert (map (fun j => rd msg' (j + 2)) (seq 0 (Z.to_nat payloadLen))
          = map (fun j => rd msg (j + 2)) (seq 0 (Z.to_nat payloadLen))) as ->.
  { apply map_ext_in. intros j Hj. apply in_seq in Hj. symmetry. apply Hsame. lia. }
  reflexivity.
Qed.

(** X7: the verdict of check_message depends on the first [nbytesRead]
    entries of the array only: what earlier lines left behind them in OSPmsg
    has no part in it. *)
Theorem check_message_reads_decoded_bytes_only (msg msg' : list Z) (nbytesRead : nat) :
  (forall i, (i < nbytesRead)%nat -> rd msg i = rd msg' i) ->
  check_message msg nbytesRead = check_message msg' nbytesRead.
Proof. apply check_message_prefix. Qed.

Lemma check_message_reads_decoded_bytes_only_witness :
  check_message doc_msg 22 = check_message (take 22 doc_msg ++ repeat 255 2028) 22.
Proof.
  apply (check_message_reads_decoded_bytes_only doc_msg (take 22 doc_msg ++ repeat 255 2028) 22).
  intros i Hi.
  do 22 (destruct i as [|i]; [reflexivity|]). lia.
Defined.

(** X8: a message that check_message lets through has a payload of 1 to 2045
    bytes (not the 2048 of the comment on MSGSIZE), and a checksum below
    0x8000: a message whose first checksum byte is 0x80 or more does not
    pass. *)
Theorem checked_message_bounds (msg : list Z) (nbytesRead : nat) (payloadLen : Z) :
  check_message msg nbytesRead = Checked payloadLen ->
  1 <= payloadLen <= 2045
  /\ Z.of_nat nbytesRead = payloadLen + 4
  /\ 0 <= trailing_check msg payloadLen < 32768
  /\ rd msg (Z.to_nat payloadLen + 2) < 128.
Proof.
  intros Hok. destruct (check_message_Checked _ _ _ Hok) as (Hn & Hp & Hcount & Hsum).
  rewrite be16_bytes in Hsum by apply rd_byte.
  fold (trailing_check msg payloadLen) in Hsum.
  rewrite checksum_loop_sum in Hsum by lia.
  pose proof (Z.mod_pos_bound
                (0 + Zsum (map (fun j => rd msg (j + 2)) (seq 0 (Z.to_nat payloadLen))))
                32768 ltac:(lia)) as Hmod.
  rewrite Hsum in Hmod.
  assert (MSGSIZE = 2050%nat) as HM by reflexivity.
  split; [lia|]. split; [exact Hcount|]. split; [exact Hmod|].
  unfold trailing_check in Hmod.
  pose proof (rd_byte msg (Z.to_nat payloadLen + 3)) as Hlo. unfold is_byte in Hlo. lia.
Qed.

Lemma checked_message_bounds_witness :
  1 <= 18 <= 2045 /\ Z.of_nat 22 = 18 + 4
  /\ 0 <= trailing_check doc_msg 18 < 32768
  /\ rd doc_msg (Z.to_nat 18 + 2) < 128.
Proof.
  apply (checked_message_bounds doc_msg 22 18). vm_compute. reflexivity.
Defined.

Lemma map_to_uchar_bytes l : Forall is_byte l -> map to_uchar l = l.
Proof.
  induction 1 as [|b l Hb _ IH]; [reflexivity|].
  cbn [map]. rewrite IH, (to_uchar_of_byte b Hb). reflexivity.
Qed.

Lemma map_to_uchar_is_bytes l : Forall is_byte (map to_uchar l).
Proof. induction l; constructor; [apply to_uchar_byte | assumption]. Qed.

Lemma payload_of_length msg payloadLen :
  (Z.to_nat payloadLen + 2 <= length msg)%nat ->
  length (payload_of msg payloadLen) = Z.to_nat payloadLen.
Proof.
  intros H. unfold payload_of.
  rewrite length_map, length_take, length_drop. lia.
Qed.

(** The bytes given to fwrite: the two bytes of the length and the payload. *)
Lemma frame_parts msg nbytesRead payloadLen :
  length msg = MSGSIZE ->
  check_message msg nbytesRead = Checked payloadLen ->
  frame msg payloadLen = rd msg 0 :: rd msg 1 :: payload_of msg payloadLen
  /\ be16 (rd msg 0) (rd msg 1) = payloadLen
  /\ length (payload_of msg payloadLen) = Z.to_nat payloadLen
  /\ 1 <= payloadLen <= 2045.
Proof.
  intros Hlen Hok. destruct (check_message_Checked _ _ _ Hok) as (Hn & Hp & Hcount & _).
  assert (MSGSIZE = 2050%nat) as HM by reflexivity.
  assert (1 <= payloadLen <= 2045) as Hr by lia.
  split; [|split; [symmetry; exact Hp | split; [apply payload_of_length; lia | exact Hr]]].
  unfold frame, payload_of, to_uint. rewrite Z.mod_small by lia.
  replace (Z.to_nat (payloadLen + 2)) with (2 + Z.to_nat payloadLen)%nat by lia.
  rewrite <- take_take_drop, map_app.
  destruct msg as [|b0 [|b1 msg]]; [simpl in Hlen; lia | simpl in Hlen; lia|].
  reflexivity.
Qed.

(** X9: the bytes that extractMsgs gives to fwrite for a message that passed
    the checks are a record that reads back: two bytes with the length of the
    payload, then the payload, of that length; the checksum is not among
    them. *)
Theorem written_record_reads_back (msg : list Z) (nbytesRead : nat) (payloadLen : Z)
    (rest : list Z) :
  length msg = MSGSIZE ->
  check_message msg nbytesRead = Checked payloadLen ->
  read_record (frame msg payloadLen ++ rest) = Some (payload_of msg payloadLen, rest)
  /\ Z.of_nat (length (frame msg payloadLen)) = payloadLen + 2
  /\ Z.of_nat (length (payload_of msg payloadLen)) = payloadLen.
Proof.
  intros Hlen Hok.
  destruct (frame_parts _ _ _ Hlen Hok) as (Hframe & Hbe & Hplen & Hr).
  rewrite Hframe. cbn [app read_record length]. rewrite Hbe, Hplen.
  split; [|split; lia].
  rewrite length_app, Hplen.
  destruct (Nat.leb_spec (Z.to_nat payloadLen) (Z.to_nat payloadLen + length rest)) as [_|];
    [|lia].
  rewrite <- Hplen. rewrite take_app_length, drop_app_length. reflexivity.
Qed.

Lemma written_record_reads_back_witness :
  read_record (frame doc_msg 18 ++ [0; 1; 7])
  = Some ([51; 6; 0; 0; 0; 0; 0; 0; 0; 25; 0; 0; 0; 0; 0; 0; 100; 225], [0; 1; 7]).
Proof.
  apply (written_record_reads_back doc_msg 22 18 [0; 1; 7]).
  - reflexivity.
  - vm_compute. reflexivity.
Defined.

(** ** The decoding loop *)

(** X10: the decoding loop adds at most [k] bytes to the [nbytesRead] it
    starts with, so at most MSGSIZE from 0, and at most one for every three
    characters between the start and the tail, rounded up; it leaves the
    array at its size and changes no entry outside those it decodes. *)
Theorem decode_stays_inside (line : list ascii) (tail k header nbytesRead : nat)
    (msg : list Z) :
  let '(n', msg') := decode line tail k header nbytesRead msg in
  (nbytesRead <= n' <= nbytesRead + k)%nat
  /\ (3 * (n' - nbytesRead) <= (tail - header) + 2)%nat
  /\ length msg' = length msg
  /\ forall i, (i < nbytesRead \/ n' <= i)%nat -> rd msg' i = rd msg i.
Proof.
  revert header nbytesRead msg.
  induction k as [|k IH]; intros header nbytesRead msg; cbn [decode].
  - repeat split; try lia.
  - destruct (Nat.ltb_spec header tail) as [Hlt|Hge]; [|repeat split; try lia].
    destruct (sscanf_x _) as [ui|]; [|repeat split; try lia].
    specialize (IH (header + 3)%nat (S nbytesRead) (<[nbytesRead := to_uchar ui]> msg)).
    destruct (decode _ _ _ _ _ _) as [n' msg'].
    destruct IH as (Hn & Hdist & Hlen & Hrd).
    rewrite length_insert in Hlen.
    split; [lia|]. split; [lia|]. split; [exact Hlen|].
    intros i Hi. rewrite Hrd by lia. apply rd_insert_ne. lia.
Qed.

Ltac enum16 d :=
  let H := fresh in
  assert (d = 0 \/ d = 1 \/ d = 2 \/ d = 3 \/ d = 4 \/ d = 5 \/ d = 6 \/ d = 7
          \/ d = 8 \/ d = 9 \/ d = 10 \/ d = 11 \/ d = 12 \/ d = 13 \/ d = 14 \/ d = 15)
    as H by lia;
  repeat (destruct H as [->|H]); [..|subst d].

Lemma sscanf_x_hex_digits hi lo rest :
  0 <= hi < 16 -> 0 <= lo < 16 ->
  sscanf_x (hex_digit hi :: hex_digit lo :: " "%char :: rest) = Some (16 * hi + lo).
Proof.
  intros Hhi Hlo. enum16 hi; enum16 lo; reflexivity.
Qed.

Lemma sscanf_x_hex_byte b rest :
  is_byte b -> sscanf_x (hex_byte b ++ rest) = Some b.
Proof.
  unfold is_byte. intros Hb. unfold hex_byte. cbn [app].
  rewrite sscanf_x_hex_digits.
  - f_equal. pose proof (Z.div_mod b 16 ltac:(lia)). lia.
  - split; [apply Z.div_pos; lia | apply Z.div_lt_upper_bound; lia].
  - apply Z.mod_pos_bound. lia.
Qed.

Lemma decode_hex : forall bs line tail k header nbytesRead msg rest,
  Forall is_byte bs ->
  drop header line = hex_of_bytes bs ++ rest ->
  tail = (header + 3 * length bs)%nat ->
  (length bs <= k)%nat ->
  (nbytesRead + length bs <= length msg)%nat ->
  decode line tail k header nbytesRead msg
  = ((nbytesRead + length bs)%nat,
     take nbytesRead msg ++ bs ++ drop (nbytesRead + length bs) msg).
Proof.
  induction bs as [|b bs IH]; intros line tail k header nbytesRead msg rest Hbs Htext Htail Hk Hfit.
  - cbn [length app] in *. rewrite Nat.add_0_r, take_drop.
    assert (tail = header) as -> by lia.
    destruct k; cbn [decode]; [reflexivity|].
    rewrite Nat.ltb_irrefl. reflexivity.
  - inversion Hbs as [|? ? Hb Hbs']; subst.
    cbn [length] in *. destruct k as [|k]; [lia|]. cbn [decode].
    destruct (Nat.ltb_spec header (header + 3 * S (length bs))) as [_|]; [|lia].
    rewrite Htext. unfold hex_of_bytes. cbn [map concat].
    rewrite <- app_assoc, sscanf_x_hex_byte by exact Hb.
    rewrite (IH line _ k (header + 3)%nat (S nbytesRead) _ rest Hbs').
    + rewrite (to_uchar_of_byte b Hb).
      rewrite (take_S_r _ nbytesRead b)
        by (apply list_lookup_insert_eq; lia).
      rewrite take_insert_ge by lia.
      rewrite drop_insert_lt by lia.
      rewrite <- app_assoc. cbn [app].
      replace (S nbytesRead + length bs)%nat with (nbytesRead + S (length bs))%nat by lia.
      reflexivity.
    + rewrite <- drop_drop, Htext. unfold hex_of_bytes. cbn [map concat].
      rewrite <- app_assoc. reflexivity.
    + lia.
    + lia.
    + rewrite length_insert. lia.
Qed.

(** X11: decoding reads back the bytes of a message written in the format
    of the lines: when the text from [header] on is the bytes [bs], each as
    two hexadecimal digits and a blank, and the tail comes right after them,
    the loop decodes exactly [bs] into the start of OSPmsg, provided they are
    fewer than MSGSIZE + 1. *)
Theorem decode_reads_back_hex (bs : list Z) (line rest : list ascii)
    (header : nat) (msg : list Z) :
  Forall is_byte bs ->
  drop header line = hex_of_bytes bs ++ rest ->
  (length bs <= MSGSIZE)%nat ->
  length msg = MSGSIZE ->
  decode line (header + 3 * length bs) MSGSIZE header 0 msg
  = (length bs, bs ++ drop (length bs) msg).
Proof.
  intros Hbs Htext Hk Hlen.
  rewrite (decode_hex bs line _ MSGSIZE header 0%nat msg rest) by (try assumption; lia).
  reflexivity.
Qed.

Lemma decode_reads_back_hex_witness :
  decode (chars doc_line) (34 + 3 * 22) MSGSIZE 34 0 (repeat 0 MSGSIZE)
  = (22%nat, take 22 doc_msg ++ drop 22 (repeat 0 MSGSIZE)).
Proof.
  apply (decode_reads_back_hex (take 22 doc_msg) (chars doc_line) (chars "B0 B3
") 34 (repeat 0 MSGSIZE)).
  - repeat constructor; unfold is_byte; lia.
  - vm_compute. reflexivity.
  - vm_compute. lia.
  - reflexivity.
Defined.

(** ** The loop, line by line *)

Section ExtractMore.

Variable mktime : tm -> Z.
Variable localtime_now : tm.
Variable FILE : Type.
Variable fwrite : list Z -> FILE -> Z * FILE.
Variable WANTEDMsg : list Z.
Variables fromT toT : Z.

Let state := state FILE.
Let accept := accept_line mktime localtime_now FILE WANTEDMsg fromT toT.
Let process := process_line mktime localtime_now FILE fwrite WANTEDMsg fromT toT.
Let read := read_lines mktime localtime_now FILE fwrite WANTEDMsg fromT toT.

(** How a line gets to be written. *)
Lemma accept_line_to_write (st st' : state) line timeTag payloadLen :
  accept st line = Done (st', Some (timeTag, payloadLen)) ->
  checkInterval mktime localtime_now line fromT toT = true
  /\ (exists header tail nbytesRead,
        strstr (cstr line) (chars "A0 A2") = Some header
        /\ decode (cstr line) tail MSGSIZE (header + 6) 0 (OSPmsg _ st)
           = (nbytesRead, OSPmsg _ st')
        /\ check_message (OSPmsg _ st') nbytesRead = Checked payloadLen)
  /\ wantedMsg WANTEDMsg (rd (OSPmsg _ st') 2) = true.
Proof.
  unfold accept, accept_line. cbn [read_into GP2line OSPmsg nMessages outFile log].
  rewrite checkInterval_fgets_into, cstr_fgets_into.
  destruct (checkInterval _ _ _ _ _); [|discriminate]. cbn [negb].
  destruct (strstr _ _) as [header|]; [|discriminate].
  destruct (option_map _ _) as [tail|]; [|discriminate].
  destruct (decode _ _ _ _ _ _) as [nbytesRead msg] eqn:Hd.
  destruct (check_message msg nbytesRead) as [|p| |p] eqn:Hcheck.
  1-3: discriminate.
  destruct (wantedMsg WANTEDMsg (rd msg 2)) eqn:Hw; [|discriminate].
  intros [= <- <- <-]. cbn [OSPmsg].
  split; [reflexivity|]. split; [|exact Hw].
  exists header, tail, nbytesRead. repeat split; assumption.
Qed.

(** The three ways the body of the loop ends for a line. *)
Lemma process_line_ways (st st' : state) line c :
  process st line = Done (st', c) ->
  exists d, log _ st' = log _ st ++ [d]
  /\ ((c = Next /\ nMessages _ st' = nMessages _ st /\ outFile _ st' = outFile _ st
       /\ count_written [d] = 0 /\ d <> CannotWrite)
      \/ (exists st1 timeTag payloadLen,
            accept st line = Done (st1, Some (timeTag, payloadLen))
            /\ fwrite (frame (OSPmsg _ st1) payloadLen) (outFile _ st)
               = (to_uint (payloadLen + 2), outFile _ st')
            /\ OSPmsg _ st' = OSPmsg _ st1
            /\ c = Next /\ nMessages _ st' = nMessages _ st + 1
            /\ d = WrittenMID timeTag (rd (OSPmsg _ st1) 2))
      \/ (exists st1 timeTag payloadLen written,
            accept st line = Done (st1, Some (timeTag, payloadLen))
            /\ fwrite (frame (OSPmsg _ st1) payloadLen) (outFile _ st)
               = (written, outFile _ st')
            /\ written <> to_uint (payloadLen + 2)
            /\ c = Return (- nMessages _ st - 4) /\ nMessages _ st' = nMessages _ st
            /\ d = CannotWrite)).
Proof.
  unfold process, process_line. fold accept.
  destruct (accept st line) as [[st1 r]|] eqn:Ha; [|discriminate].
  destruct (accept_line_effect _ _ _ _ _ _ _ _ _ _ Ha) as (Hn & Hout & Hlog).
  cbn [bind fst snd]. destruct r as [[timeTag payloadLen]|].
  - unfold write_message. destruct (fwrite _ _) as [written out] eqn:Hw.
    rewrite Hout in Hw.
    destruct (Z.eqb_spec written (to_uint (payloadLen + 2))) as [E|E];
      intros [= <- <-]; cbn [logged nMessages log outFile OSPmsg]; rewrite Hlog;
      eexists; (split; [reflexivity|]); right.
    + left. exists st1, timeTag, payloadLen. rewrite <- E, Hn. repeat split. exact Hw.
    + right. exists st1, timeTag, payloadLen, written. rewrite Hn. repeat split; assumption.
  - destruct Hlog as (d & Hlog & Hd & Hnc). intros [= <- <-].
    exists d. split; [exact Hlog|]. left. repeat split; assumption.
Qed.

(** X12: each line that the body of the loop gets through adds one message
    to the log. Unless that message tells of a write or of a failed write,
    the loop goes on with the count and the output file as they were; and
    the loop is left by its return only with the message of the failed
    write. *)
Theorem one_log_message_per_line (st st' : state) line c :
  process st line = Done (st', c) ->
  exists d, log _ st' = log _ st ++ [d]
  /\ ((forall timeTag mid, d <> WrittenMID timeTag mid) -> d <> CannotWrite ->
      c = Next /\ nMessages _ st' = nMessages _ st /\ outFile _ st' = outFile _ st)
  /\ (c <> Next -> d = CannotWrite /\ c = Return (- nMessages _ st - 4)).
Proof.
  intros H. destruct (process_line_ways _ _ _ _ H) as (d & Hlog & Hways).
  exists d. split; [exact Hlog|].
  destruct Hways as [(Hc & Hn & Hout & _ & _)
                    |[(st1 & tt & pl & _ & _ & _ & Hc & _ & Hd)
                     |(st1 & tt & pl & w & _ & _ & _ & Hc & _ & Hd)]].
  - split; [intros _ _; repeat split; assumption | intros Hne; contradiction].
  - split; [intros Hnw _; exfalso; apply (Hnw _ _ Hd) | intros Hne; contradiction].
  - split; [intros _ Hnc; contradiction | intros _; split; assumption].
Qed.

(** X13: a message is written only for a line whose time tag is inside the
    interval, whose decoded bytes pass check_message and whose MID is wanted:
    when the log says "written MID", that holds, the MID logged is the third
    byte of the message, fwrite has returned the payloadLen + 2 it was asked
    for and the count is one more. *)
Theorem written_only_when_checked (st st' : state) line c timeTag mid :
  process st line = Done (st', c) ->
  last (log _ st') = Some (WrittenMID timeTag mid) ->
  checkInterval mktime localtime_now line fromT toT = true
  /\ wantedMsg WANTEDMsg mid = true
  /\ mid = rd (OSPmsg _ st') 2
  /\ nMessages _ st' = nMessages _ st + 1
  /\ exists nbytesRead payloadLen,
       check_message (OSPmsg _ st') nbytesRead = Checked payloadLen
       /\ fwrite (frame (OSPmsg _ st') payloadLen) (outFile _ st)
          = (payloadLen + 2, outFile _ st').
Proof.
  intros H Hlast. destruct (process_line_ways _ _ _ _ H) as (d & Hlog & Hways).
  rewrite Hlog, last_snoc in Hlast. injection Hlast as ->.
  destruct Hways as [(_ & _ & _ & Hd & _)
                    |[(st1 & tt & pl & Ha & Hw & Hmsg & _ & Hn & Hd)
                     |(st1 & tt & pl & w & _ & _ & _ & _ & _ & Hd)]];
    [cbn in Hd; lia | | discriminate].
  injection Hd as -> ->.
  destruct (accept_line_to_write _ _ _ _ _ Ha) as (Hin & (h & t & n & _ & _ & Hok) & Hwant).
  rewrite Hmsg.
  split; [exact Hin|]. split; [exact Hwant|]. split; [reflexivity|]. split; [exact Hn|].
  exists n, pl. split; [exact Hok|].
  destruct (check_message_Checked _ _ _ Hok) as (Hn' & Hp & Hcount & _).
  assert (MSGSIZE = 2050%nat) as HM by reflexivity.
  unfold to_uint in Hw. rewrite Z.mod_small in Hw by lia. exact Hw.
Qed.

End ExtractMore.

Lemma one_log_message_per_line_witness :
  exists st' c d,
    process_line mktime_utc noon_tm volume fwrite_volume WANTEDMsg_init
      default_from default_to (initial volume (mk_volume 1000 [])) (chars tailless_line)
    = Done (st', c)
    /\ log volume st' = [] ++ [d].
Proof.
  destruct (process_line mktime_utc noon_tm volume fwrite_volume WANTEDMsg_init
              default_from default_to (initial volume (mk_volume 1000 []))
              (chars tailless_line)) as [[st' c]|f] eqn:E.
  - destruct (one_log_message_per_line _ _ _ _ _ _ _ _ _ _ _ E) as (d & Hlog & _).
    exists st', c, d. split; [reflexivity | exact Hlog].
  - vm_compute in E. discriminate E.
Defined.

Lemma written_only_when_checked_witness :
  checkInterval mktime_utc noon_tm (chars doc_line) default_from default_to = true
  /\ wantedMsg WANTED_ALL 51 = true.
Proof.
  destruct (process_line mktime_utc noon_tm volume fwrite_volume WANTED_ALL
              default_from default_to (initial volume (mk_volume 1000 []))
              (chars doc_line)) as [[st' c]|f] eqn:E.
  - assert (last (log volume st')
            = Some (WrittenMID (chars "29/10/2014 20:31:08.942") 51)) as Hlast.
    { pose proof E as E'. vm_compute in E'. injection E' as <- _. reflexivity. }
    destruct (written_only_when_checked _ _ _ _ _ _ _ _ _ _ _ _ _ E Hlast)
      as (Hin & Hw & _).
    split; assumption.
  - vm_compute in E. discriminate E.
Defined.

(** ** The value that extractMsgs returns *)

Lemma count_written_nonneg l : 0 <= count_written l.
Proof. induction l as [|d l IH]; cbn [count_written]; [lia|]. destruct d; lia. Qed.

Section ExtractResult.

Variable mktime : tm -> Z.
Variable localtime_now : tm.
Variable FILE : Type.
Variable fwrite : list Z -> FILE -> Z * FILE.
Variable WANTEDMsg : list Z.
Variables fromT toT : Z.

Let read := read_lines mktime localtime_now FILE fwrite WANTEDMsg fromT toT.

Lemma read_lines_log : forall inFile (st st' : state FILE) c,
  read st inFile = Done (st', c) ->
  exists ds, log _ st' = log _ st ++ ds
  /\ match c with
     | Next => length ds = length inFile /\ ~ In CannotWrite ds
     | Return r => (length ds <= length inFile)%nat
                   /\ last ds = Some CannotWrite
                   /\ r = - nMessages _ st' - 4
     end.
Proof.
  induction inFile as [|line rest IH]; intros st st' c; cbn [read read_lines].
  - intros [= <- <-]. exists []. rewrite app_nil_r. repeat split. intros [].
  - destruct (process_line _ _ _ _ _ _ _ st line) as [[st1 c1]|] eqn:Hp; [|discriminate].
    cbn [bind fst snd].
    destruct (process_line_ways _ _ _ _ _ _ _ _ _ _ _ Hp) as (d & Hlog & Hways).
    destruct c1 as [|v].
    + intros H. destruct (IH _ _ _ H) as (ds & Hlog' & Hc).
      assert (d <> CannotWrite) as Hd.
      { destruct Hways as [(_ & _ & _ & _ & Hd)
                          |[(? & ? & ? & _ & _ & _ & _ & _ & ->)
                           |(? & ? & ? & ? & _ & _ & _ & Hc' & _)]];
          [exact Hd | discriminate | discriminate]. }
      exists (d :: ds). rewrite Hlog', Hlog, <- app_assoc. split; [reflexivity|].
      destruct c as [|r].
      * destruct Hc as [Hlen Hnot]. cbn [length]. split; [lia|].
        intros [Hin|Hin]; [congruence | contradiction].
      * destruct Hc as (Hlen & Hlast & Hr). cbn [length]. split; [lia|].
        split; [|exact Hr]. rewrite last_cons, Hlast. reflexivity.
    + intros [= <- <-]. exists [d]. split; [exact Hlog|].
      destruct Hways as [(Hc' & _)
                        |[(? & ? & ? & _ & _ & _ & Hc' & _)
                         |(? & ? & ? & ? & _ & _ & _ & Hc' & Hn & ->)]];
        [discriminate | discriminate |].
      injection Hc' as ->. cbn [length]. repeat split; [lia | f_equal; lia].
Qed.

(** X14: the value that extractMsgs returns tells how the loop ended. At the
    end of the input it is 0 or more: the number of messages logged as
    written, every line having its message in the log and none of them being
    that of a failed write. After a failed write it is -4 or less: minus the
    number of messages written, minus 4, the message of the failed write
    being the last of the log. It is never -1, -2 or -3. *)
Theorem extractMsgs_result (inFile : list (list ascii)) (out : FILE)
    (st : state FILE) (r : Z) :
  extractMsgs mktime localtime_now FILE fwrite WANTEDMsg inFile fromT toT out
  = Done (st, r) ->
  (0 <= r /\ r = count_written (log _ st)
   /\ length (log _ st) = length inFile /\ ~ In CannotWrite (log _ st))
  \/ (r <= -4 /\ r = - count_written (log _ st) - 4
      /\ last (log _ st) = Some CannotWrite
      /\ (length (log _ st) <= length inFile)%nat).
Proof.
  unfold extractMsgs. fold read.
  destruct (read (initial FILE out) inFile) as [[st' c]|] eqn:Hrun; [|discriminate].
  cbn [bind fst snd]. intros [= <- <-].
  pose proof (read_lines_count _ _ _ _ _ _ _ _ _ _ _ Hrun) as Hcount.
  cbn [initial nMessages log count_written] in Hcount.
  destruct (read_lines_log _ _ _ _ Hrun) as (ds & Hlog & Hc).
  cbn [initial log app] in Hlog. rewrite <- Hlog in Hc.
  pose proof (count_written_nonneg (log _ st')) as Hpos.
  destruct c as [|v].
  - left. destruct Hc as [Hlen Hnot]. repeat split; [lia | lia | exact Hlen | exact Hnot].
  - right. destruct Hc as (Hlen & Hlast & Hr).
    repeat split; [lia | lia | exact Hlast | exact Hlen].
Qed.

End ExtractResult.

Lemma extractMsgs_result_witness :
  exists st r,
    run_utc WANTED_ALL three_lines default_from default_to (mk_volume 30 []) = Done (st, r)
    /\ r <= -4 /\ r = - count_written (log volume st) - 4.
Proof.
  destruct (run_utc WANTED_ALL three_lines default_from default_to (mk_volume 30 []))
    as [[st r]|f] eqn:E.
  - exists st, r. split; [reflexivity|].
    destruct (extractMsgs_result _ _ _ _ _ _ _ _ _ _ _ E) as [(Hr & _)|(Hr & Hn & _)].
    + exfalso. vm_compute in E. injection E as _ <-. lia.
    + split; assumption.
  - vm_compute in E. discriminate E.
Defined.

(** ** Lines do not depend on the messages decoded before them *)

Lemma decode_agree line tail : forall k header nbytesRead msg1 msg2,
  length msg1 = length msg2 ->
  (nbytesRead + k <= length msg1)%nat ->
  (forall i, (i < nbytesRead)%nat -> rd msg1 i = rd msg2 i) ->
  fst (decode line tail k header nbytesRead msg1)
  = fst (decode line tail k header nbytesRead msg2)
  /\ forall i, (i < fst (decode line tail k header nbytesRead msg1))%nat ->
       rd (snd (decode line tail k header nbytesRead msg1)) i
       = rd (snd (decode line tail k header nbytesRead msg2)) i.
Proof.
  induction k as [|k IH]; intros header nbytesRead msg1 msg2 Hlen Hfit Hsame;
    cbn [decode].
  - split; [reflexivity | exact Hsame].
  - destruct (header <? tail)%nat; [|split; [reflexivity | exact Hsame]].
    destruct (sscanf_x _) as [ui|]; [|split; [reflexivity | exact Hsame]].
    apply IH.
    + rewrite !length_insert. exact Hlen.
    + rewrite length_insert. lia.
    + intros i Hi. destruct (Nat.eq_dec i nbytesRead) as [->|Hne].
      * rewrite !rd_insert_eq by lia. reflexivity.
      * rewrite !rd_insert_ne by congruence. apply Hsame. lia.
Qed.

Lemma frame_agree msg1 msg2 payloadLen :
  (Z.to_nat (to_uint (payloadLen + 2)) <= length msg1)%nat ->
  (Z.to_nat (to_uint (payloadLen + 2)) <= length msg2)%nat ->
  (forall i, (i < Z.to_nat (to_uint (payloadLen + 2)))%nat -> rd msg1 i = rd msg2 i) ->
  frame msg1 payloadLen = frame msg2 payloadLen.
Proof.
  intros H1 H2 Hsame. unfold frame.
  rewrite <- !reads_take by assumption.
  apply map_ext_in. intros i Hi. apply in_seq in Hi. apply Hsame. lia.
Qed.

Section StaleBytes.

Variable mktime : tm -> Z.
Variable localtime_now : tm.
Variable FILE : Type.
Variable WANTEDMsg : list Z.
Variables fromT toT : Z.

Let accept := accept_line mktime localtime_now FILE WANTEDMsg fromT toT.

(** X15: what a line comes to does not depend on the bytes that earlier
    lines left in OSPmsg: started with another array of MSGSIZE bytes, the
    body of the loop logs the same, hands on the same payloadLen and has the
    same bytes to write. *)
Theorem earlier_messages_do_not_matter (st st1 : state FILE) (msg2 : list Z)
    (line : list ascii) (r : option (list ascii * Z)) :
  length (OSPmsg _ st) = MSGSIZE ->
  length msg2 = MSGSIZE ->
  accept st line = Done (st1, r) ->
  exists st2,
    accept (mk_state FILE (GP2line _ st) msg2 (nMessages _ st) (outFile _ st) (log _ st)) line
    = Done (st2, r)
    /\ log _ st2 = log _ st1
    /\ forall timeTag payloadLen,
         r = Some (timeTag, payloadLen) ->
         frame (OSPmsg _ st2) payloadLen = frame (OSPmsg _ st1) payloadLen.
Proof.
  intros Hlen1 Hlen2. unfold accept, accept_line.
  cbn [read_into GP2line OSPmsg nMessages outFile log].
  destruct (negb _); [intros [= <- <-]; eexists; repeat split; discriminate|].
  destruct (strstr _ _) as [header|]; [|discriminate].
  destruct (option_map _ _) as [tail|];
    [|intros [= <- <-]; eexists; repeat split; discriminate].
  set (text := cstr (fgets_into (GP2line _ st) line)).
  destruct (decode_agree text tail MSGSIZE (header + 6) 0 (OSPmsg _ st) msg2)
    as [Hn Hsame]; [congruence | lia | intros i Hi; lia|].
  pose proof (decode_length text tail MSGSIZE (header + 6) 0 (OSPmsg _ st)) as Hl1.
  pose proof (decode_length text tail MSGSIZE (header + 6) 0 msg2) as Hl2.
  destruct (decode text tail MSGSIZE (header + 6) 0 (OSPmsg _ st)) as [n m1].
  destruct (decode text tail MSGSIZE (header + 6) 0 msg2) as [n2 m2].
  cbn [fst snd] in *. subst n2.
  rewrite <- (check_message_prefix m1 m2 n Hsame).
  destruct (check_message m1 n) as [|p| |p] eqn:Hcheck.
  1-3: intros [= <- <-]; eexists; repeat split; discriminate.
  destruct (check_message_Checked _ _ _ Hcheck) as (Hbound & Hp & Hcount & _).
  assert (MSGSIZE = 2050%nat) as HM by reflexivity.
  rewrite <- (Hsame 2%nat) by lia.
  destruct (wantedMsg WANTEDMsg (rd m1 2));
    intros [= <- <-]; eexists; (split; [reflexivity|]); (split; [reflexivity|]);
    [|discriminate].
  intros timeTag payloadLen [= _ <-]. cbn [OSPmsg].
  assert (to_uint (p + 2) = p + 2) as Hu by (unfold to_uint; apply Z.mod_small; lia).
  symmetry. apply frame_agree; rewrite Hu; [lia | lia|].
  intros i Hi. apply Hsame. lia.
Qed.

End StaleBytes.

Lemma earlier_messages_do_not_matter_witness :
  exists st1 st2 r,
    accept_line mktime_utc noon_tm volume WANTED_ALL default_from default_to
      (initial volume (mk_volume 1000 [])) (chars doc_line) = Done (st1, r)
    /\ accept_line mktime_utc noon_tm volume WANTED_ALL default_from default_to
         (mk_state volume (repeat NUL GP2SIZE) (repeat 255 MSGSIZE) 0 (mk_volume 1000 []) [])
         (chars doc_line) = Done (st2, r).
Proof.
  destruct (accept_line mktime_utc noon_tm volume WANTED_ALL default_from default_to
              (initial volume (mk_volume 1000 [])) (chars doc_line))
    as [[st1 r]|f] eqn:E.
  - destruct (earlier_messages_do_not_matter mktime_utc noon_tm volume WANTED_ALL
                default_from default_to (initial volume (mk_volume 1000 [])) st1
                (repeat 255 MSGSIZE) (chars doc_line) r) as (st2 & E2 & _).
    + reflexivity.
    + reflexivity.
    + exact E.
    + exists st1, st2, r. split; [reflexivity | exact E2].
  - vm_compute in E. discriminate E.
Defined.

(** ** A line in the documented format *)

Section WellFormedLine.

Variable mktime : tm -> Z.
Variable localtime_now : tm.
Variable FILE : Type.
Variable WANTEDMsg : list Z.
Variables fromT toT : Z.

Let accept := accept_line mktime localtime_now FILE WANTEDMsg fromT toT.

(** X16: a line in the format that main documents is taken for writing.
    When the text of the line is a part [pre] with its time tag inside the
    interval, "A0 A2 ", the bytes [bs] each as two hexadecimal digits and a
    blank, "B0 B3" and the rest, these being the first "A0 A2" and the first
    "B0 B3" after it, and when [bs] passes check_message with a wanted MID,
    then OSPmsg starts with [bs] and what is to be written is [bs] without
    its last two bytes. *)
Theorem documented_line_is_accepted (st : state FILE) (line pre post : list ascii)
    (bs : list Z) (payloadLen : Z) :
  length (OSPmsg _ st) = MSGSIZE ->
  cstr line = pre ++ chars "A0 A2 " ++ hex_of_bytes bs ++ chars "B0 B3" ++ post ->
  Forall is_byte bs ->
  checkInterval mktime localtime_now line fromT toT = true ->
  strstr (cstr line) (chars "A0 A2") = Some (length pre) ->
  strstr (drop (length pre + 5) (cstr line)) (chars "B0 B3")
  = Some (1 + 3 * length bs)%nat ->
  check_message bs (length bs) = Checked payloadLen ->
  wantedMsg WANTEDMsg (rd bs 2) = true ->
  exists st',
    accept st line
    = Done (st', Some (take 23 (fgets_into (GP2line _ st) line), payloadLen))
    /\ OSPmsg _ st' = bs ++ drop (length bs) (OSPmsg _ st)
    /\ frame (OSPmsg _ st') payloadLen = take (Z.to_nat payloadLen + 2) bs.
Proof.
  intros Hlen Htext Hbs Hin Hhead Htail Hok Hwant.
  destruct (check_message_Checked _ _ _ Hok) as (Hbound & Hp & Hcount & _).
  assert (MSGSIZE = 2050%nat) as HM by reflexivity.
  assert (drop (length pre + 6) (cstr line)
          = hex_of_bytes bs ++ chars "B0 B3" ++ post) as Hdrop.
  { rewrite Htext, drop_app_add. reflexivity. }
  assert (forall rest i, (i < length bs)%nat -> rd (bs ++ rest) i = rd bs i) as Hpre.
  { intros rest i Hi. unfold rd. rewrite lookup_app_l by exact Hi. reflexivity. }
  set (msg' := bs ++ drop (length bs) (OSPmsg _ st)).
  assert (check_message msg' (length bs) = Checked payloadLen) as Hok'.
  { rewrite <- Hok. apply check_message_prefix. intros i Hi. apply Hpre, Hi. }
  eexists. unfold accept, accept_line.
  cbn [read_into GP2line OSPmsg nMessages outFile log].
  rewrite checkInterval_fgets_into, Hin, cstr_fgets_into, Hhead, Htail.
  cbn [negb option_map].
  replace (length pre + 5 + (1 + 3 * length bs))%nat
    with (length pre + 6 + 3 * length bs)%nat by lia.
  rewrite (decode_hex bs (cstr line) _ MSGSIZE (length pre + 6) 0%nat (OSPmsg _ st)
             (chars "B0 B3" ++ post)) by (try assumption; lia).
  rewrite take_0, app_nil_l, Nat.add_0_l. fold msg'. rewrite Hok'.
  replace (rd msg' 2) with (rd bs 2) by (symmetry; apply Hpre; lia). rewrite Hwant.
  split; [reflexivity|]. cbn [OSPmsg]. split; [reflexivity|].
  unfold frame, to_uint. rewrite Z.mod_small by lia.
  replace (Z.to_nat (payloadLen + 2)) with (Z.to_nat payloadLen + 2)%nat by lia.
  unfold msg'. rewrite take_app_le by lia.
  apply map_to_uchar_bytes, Forall_take, Hbs.
Qed.

End WellFormedLine.

Lemma documented_line_is_accepted_witness :
  exists st',
    accept_line mktime_utc noon_tm volume WANTED_ALL default_from default_to
      (initial volume (mk_volume 1000 [])) (chars doc_line)
    = Done (st', Some (chars "29/10/2014 20:31:08.942", 18))
    /\ frame (OSPmsg volume st') 18 = take 20 doc_msg.
Proof.
  destruct (documented_line_is_accepted mktime_utc noon_tm volume WANTED_ALL
              default_from default_to (initial volume (mk_volume 1000 []))
              (chars doc_line) (chars "29/10/2014 20:31:08.942 (0) ") (chars "
") (take 22 doc_msg) 18) as (st' & Ha & _ & Hframe).
  - reflexivity.
  - vm_compute. reflexivity.
  - repeat constructor; unfold is_byte; lia.
  - vm_compute. reflexivity.
  - vm_compute. reflexivity.
  - vm_compute. reflexivity.
  - vm_compute. reflexivity.
  - vm_compute. reflexivity.
  - exists st'. split; [exact Ha | exact Hframe].
Defined.

(** ** Runs that come to their end *)

Lemma accept_line_completes mktime now FILE W fromT toT (st : state FILE) line :
  (checkInterval mktime now line fromT toT = true ->
   strstr (cstr line) (chars "A0 A2") <> None) ->
  exists r, accept_line mktime now FILE W fromT toT st line = Done r.
Proof.
  intros Hhead. unfold accept_line. cbn [read_into GP2line OSPmsg nMessages outFile log].
  rewrite checkInterval_fgets_into, cstr_fgets_into.
  destruct (checkInterval mktime now line fromT toT); cbn [negb]; [|eexists; reflexivity].
  destruct (strstr (cstr line) (chars "A0 A2")) as [header|];
    [|exfalso; apply Hhead; reflexivity].
  destruct (option_map _ _) as [tail|]; [|eexists; reflexivity].
  destruct (decode _ _ _ _ _ _) as [nbytesRead msg].
  destruct (check_message msg nbytesRead) as [|p| |p]; try (eexists; reflexivity).
  destruct (wantedMsg W (rd msg 2)); eexists; reflexivity.
Qed.

Lemma read_lines_completes mktime now FILE fwrite W fromT toT :
  forall inFile (st : state FILE),
  heads_present mktime now fromT toT inFile ->
  exists r, read_lines mktime now FILE fwrite W fromT toT st inFile = Done r.
Proof.
  induction inFile as [|line rest IH]; intros st Hheads; cbn [read_lines].
  - eexists. reflexivity.
  - unfold process_line.
    destruct (accept_line_completes mktime now FILE W fromT toT st line) as [[st1 a] Ha].
    { apply Hheads. left. reflexivity. }
    rewrite Ha. cbn [bind fst snd].
    assert (exists r, (match a with
                       | Some (timeTag, payloadLen) =>
                           Done (write_message FILE fwrite st1 timeTag payloadLen)
                       | None => Done (st1, Next)
                       end) = Done r) as [[st2 c] ->]
      by (destruct a as [[timeTag payloadLen]|]; eexists; reflexivity).
    cbn [bind fst snd]. destruct c as [|v]; [|eexists; reflexivity].
    apply IH. intros l Hl. apply Hheads. right. exact Hl.
Qed.

(** ** The output file *)

Lemma records_of_app ps qs : records_of (ps ++ qs) = records_of ps ++ records_of qs.
Proof. unfold records_of. rewrite map_app, concat_app. reflexivity. Qed.

Lemma length_bytes n :
  0 <= n < 65536 -> be16 (n / 256) (n mod 256) = n.
Proof.
  intros Hn. rewrite be16_bytes.
  - pose proof (Z.div_mod n 256 ltac:(lia)). lia.
  - unfold is_byte. split; [apply Z.div_pos; lia | apply Z.div_lt_upper_bound; lia].
  - unfold is_byte. apply Z.mod_pos_bound. lia.
Qed.

Lemma read_records_of : forall ps fuel,
  Forall written_payload ps -> (length ps <= fuel)%nat ->
  read_records fuel (records_of ps) = Some ps.
Proof.
  induction ps as [|p ps IH]; intros fuel Hps Hfuel.
  - destruct fuel; reflexivity.
  - inversion Hps as [|? ? [Hbytes Hlen] Hps']; subst.
    destruct fuel as [|fuel]; [simpl in Hfuel; lia|].
    change (records_of (p :: ps))
      with ((Z.of_nat (length p) / 256) :: (Z.of_nat (length p) mod 256)
              :: (p ++ records_of ps)).
    cbn [read_records read_record].
    rewrite length_bytes by lia. rewrite Nat2Z.id, length_app.
    destruct (Nat.leb_spec (length p) (length p + length (records_of ps))) as [_|]; [|lia].
    rewrite take_app_length, drop_app_length.
    rewrite IH by (try assumption; simpl in Hfuel; lia). reflexivity.
Qed.

Lemma records_of_length ps :
  Forall written_payload ps -> (length ps <= length (records_of ps))%nat.
Proof.
  induction 1 as [|p ps _ _ IH]; [cbn; lia|].
  change (records_of (p :: ps))
    with ((Z.of_nat (length p) / 256) :: (Z.of_nat (length p) mod 256)
            :: (p ++ records_of ps)).
  cbn [length]. rewrite length_app. lia.
Qed.

Section AppendingFile.

Variable mktime : tm -> Z.
Variable localtime_now : tm.
Variable WANTEDMsg : list Z.
Variables fromT toT : Z.

Let read := read_lines mktime localtime_now (list Z) fwrite_append WANTEDMsg fromT toT.

Lemma read_lines_records : forall inFile (st st' : state (list Z)) c ps,
  read st inFile = Done (st', c) ->
  length (OSPmsg _ st) = MSGSIZE ->
  outFile _ st = records_of ps -> Forall written_payload ps ->
  c = Next
  /\ exists ps', outFile _ st' = records_of (ps ++ ps')
                 /\ Forall written_payload ps'
                 /\ Z.of_nat (length ps') = nMessages _ st' - nMessages _ st.
Proof.
  induction inFile as [|line rest IH]; intros st st' c ps; cbn [read read_lines].
  - intros [= <- <-] _ Hout _. split; [reflexivity|].
    exists []. rewrite app_nil_r. repeat split; [exact Hout | constructor | cbn; lia].
  - destruct (process_line _ _ _ _ _ _ _ st line) as [[st1 c1]|] eqn:Hp; [|discriminate].
    cbn [bind fst snd]. intros Hrun Hsize Hout Hps.
    pose proof (process_line_length _ _ _ _ _ _ _ _ _ _ _ Hp) as Hsize1.
    destruct (process_line_ways _ _ _ _ _ _ _ _ _ _ _ Hp) as (d & _ & Hways).
    assert (c1 = Next
            /\ exists ps1, outFile _ st1 = records_of (ps ++ ps1)
                           /\ Forall written_payload ps1
                           /\ Z.of_nat (length ps1) = nMessages _ st1 - nMessages _ st)
      as (-> & ps1 & Hout1 & Hps1 & Hn1).
    { destruct Hways as [(Hc & Hn & Hsame & _)
                        |[(sta & tt & pl & Ha & Hw & Hmsg & Hc & Hn & _)
                         |(sta & tt & pl & w & Ha & Hw & Hne & _)]].
      - split; [exact Hc|]. exists []. rewrite app_nil_r, Hsame.
        repeat split; [exact Hout | constructor | cbn; lia].
      - split; [exact Hc|].
        destruct (accepted_line_passes_checks _ _ _ _ _ _ _ _ _ _ _ Ha)
          as (Hlen & _ & n & Hok).
        destruct (frame_parts (OSPmsg _ sta) n pl ltac:(congruence) Hok)
          as (Hframe & Hbe & Hplen & Hr).
        exists [payload_of (OSPmsg _ sta) pl].
        unfold fwrite_append in Hw. injection Hw as _ <-.
        rewrite records_of_app, Hout, Hframe. unfold records_of. cbn [map concat].
        rewrite app_nil_r, Hplen, Z2Nat.id by lia.
        pose proof (rd_byte (OSPmsg _ sta) 0) as H0.
        pose proof (rd_byte (OSPmsg _ sta) 1) as H1. unfold is_byte in H0, H1.
        rewrite be16_bytes in Hbe by apply rd_byte.
        assert (pl / 256 = rd (OSPmsg _ sta) 0) as ->
          by (symmetry; apply Z.div_unique with (r := rd (OSPmsg _ sta) 1); lia).
        assert (pl mod 256 = rd (OSPmsg _ sta) 1) as ->
          by (symmetry; apply Z.mod_unique with (q := rd (OSPmsg _ sta) 0); lia).
        split; [reflexivity|]. split; [|cbn [length]; lia].
        constructor; [|constructor]. split.
        + unfold payload_of. apply map_to_uchar_is_bytes.
        + rewrite Hplen. lia.
      - exfalso. apply Hne.
        destruct (accepted_line_passes_checks _ _ _ _ _ _ _ _ _ _ _ Ha)
          as (Hlen & _ & n & Hok).
        destruct (frame_parts (OSPmsg _ sta) n pl ltac:(congruence) Hok)
          as (Hframe & Hbe & Hplen & Hr).
        unfold fwrite_append in Hw. injection Hw as <- _.
        rewrite Hframe. cbn [length]. rewrite Hplen.
        unfold to_uint. rewrite Z.mod_small by lia. lia. }
    destruct (IH st1 st' c (ps ++ ps1) Hrun ltac:(congruence) Hout1) as (Hc & ps2 & Hout2 & Hps2 & Hn2).
    { apply Forall_app. split; assumption. }
    split; [exact Hc|]. exists (ps1 ++ ps2). rewrite app_assoc.
    split; [exact Hout2|]. split; [apply Forall_app; split; assumption|].
    rewrite length_app. lia.
Qed.

(** X17: with an output file that takes every write, and an input in which
    every line inside the interval has its head marker, extractMsgs started
    on an empty file returns a value, having read all the lines, and its
    output reads back record by record: as many records as the value
    returned, each with the length its first two bytes give, of 1 to 2045
    bytes. *)
Theorem output_reads_back (inFile : list (list ascii)) :
  heads_present mktime localtime_now fromT toT inFile ->
  exists st r payloads,
    extractMsgs mktime localtime_now (list Z) fwrite_append WANTEDMsg inFile fromT toT []
    = Done (st, r)
    /\ read_records (length (outFile _ st)) (outFile _ st) = Some payloads
    /\ Z.of_nat (length payloads) = r
    /\ Forall written_payload payloads
    /\ length (log _ st) = length inFile.
Proof.
  intros Hheads. unfold extractMsgs. fold read.
  destruct (read_lines_completes mktime localtime_now (list Z) fwrite_append WANTEDMsg
              fromT toT inFile (initial (list Z) []) Hheads) as [[st' c] Hrun].
  fold read in Hrun. rewrite Hrun. cbn [bind fst snd].
  destruct (read_lines_records _ _ _ _ [] Hrun) as (-> & ps & Hout & Hps & Hn);
    [reflexivity | reflexivity | constructor|].
  destruct (read_lines_log _ _ _ _ _ _ _ _ _ _ _ Hrun) as (ds & Hlog & Hlen & _).
  cbn [initial nMessages log app] in *.
  exists st', (nMessages _ st'), ps. rewrite Hout.
  split; [reflexivity|].
  split; [apply read_records_of; [exact Hps | apply records_of_length, Hps]|].
  split; [lia|]. split; [exact Hps|]. rewrite Hlog. exact Hlen.
Qed.

End AppendingFile.

Lemma output_reads_back_witness :
  exists st payloads,
    extractMsgs mktime_utc noon_tm (list Z) fwrite_append WANTED_ALL
      (map chars three_lines) default_from default_to [] = Done (st, 3)
    /\ read_records (length (outFile (list Z) st)) (outFile (list Z) st) = Some payloads
    /\ Z.of_nat (length payloads) = 3.
Proof.
  destruct (output_reads_back mktime_utc noon_tm WANTED_ALL default_from default_to
              (map chars three_lines)) as (st & r & payloads & E & Hread & Hn & _).
  - intros line Hline _.
    assert (line = chars doc_line) as ->.
    { cbn in Hline. destruct Hline as [<-|[<-|[<-|[]]]]; reflexivity. }
    vm_compute. discriminate.
  - assert (r = 3) as -> by (pose proof E as E'; vm_compute in E'; congruence).
    exists st, payloads. repeat split; assumption.
Defined.

(** ** Time tags read back *)

Ltac enum10 d :=
  let H := fresh in
  assert (d = 0 \/ d = 1 \/ d = 2 \/ d = 3 \/ d = 4 \/ d = 5 \/ d = 6 \/ d = 7
          \/ d = 8 \/ d = 9) as H by lia;
  repeat (destruct H as [->|H]); [..|subst d].

Lemma scan_digits_stop acc s : no_digit_first s -> scan_digits acc s = (acc, s).
Proof. destruct s as [|c s]; cbn [no_digit_first scan_digits]; [reflexivity|]. intros ->. reflexivity. Qed.

Lemma scan_digits_digit acc a s :
  0 <= a < 10 -> scan_digits acc (digit a :: s) = scan_digits (acc * 10 + a) s.
Proof. intros Ha. enum10 a; reflexivity. Qed.

Lemma scan_d_digit a s :
  0 <= a < 10 ->
  scan_d (digit a :: s)
  = Some (to_int (strtol_value (fst (scan_digits a s))), snd (scan_digits a s)).
Proof.
  intros Ha.
  enum10 a;
    (match goal with
     | |- scan_d (digit ?a :: _) = _ =>
         change (scan_d (digit a :: s))
           with (match (let '(v, rest) := scan_digits a s in Some (v, rest)) with
                 | Some (v, rest) => Some (to_int (strtol_value v), rest)
                 | None => None
                 end)
     end;
     destruct (scan_digits _ s); reflexivity).
Qed.

Lemma skip_spaces_digit a s : 0 <= a < 10 -> skip_spaces (digit a :: s) = digit a :: s.
Proof. intros Ha. enum10 a; reflexivity. Qed.

Lemma digit_not_NUL a : 0 <= a < 10 -> Ascii.eqb (digit a) NUL = false.
Proof. intros Ha. enum10 a; reflexivity. Qed.

Lemma to_int_small v : - 2 ^ 31 <= v < 2 ^ 31 -> to_int v = v.
Proof. intros Hv. unfold to_int. rewrite Z.mod_small by lia. lia. Qed.

Lemma scanned_small v : - 2 ^ 31 <= v < 2 ^ 31 -> to_int (strtol_value v) = v.
Proof.
  intros Hv. rewrite strtol_value_in_range by (unfold LONG_MIN, LONG_MAX; lia).
  apply to_int_small, Hv.
Qed.

Lemma digit_of_div n k : 0 <= n -> 0 < k -> n < 10 * k -> 0 <= n / k < 10.
Proof.
  intros Hn Hk Hlt. split; [apply Z.div_pos; lia | apply Z.div_lt_upper_bound; lia].
Qed.

Lemma scan_d_two n s :
  0 <= n < 100 -> no_digit_first s -> scan_d (two_digits n ++ s) = Some (n, s).
Proof.
  intros Hn Hs. unfold two_digits. cbn [app].
  pose proof (digit_of_div n 10 ltac:(lia) ltac:(lia) ltac:(lia)) as Ha.
  pose proof (Z.mod_pos_bound n 10 ltac:(lia)) as Hb.
  rewrite scan_d_digit by exact Ha.
  rewrite scan_digits_digit by exact Hb.
  rewrite scan_digits_stop by exact Hs.
  pose proof (Z.div_mod n 10 ltac:(lia)) as E.
  cbn [fst snd]. rewrite scanned_small by lia. do 2 f_equal. lia.
Qed.

Lemma scan_d_four n s :
  0 <= n < 10000 -> no_digit_first s -> scan_d (four_digits n ++ s) = Some (n, s).
Proof.
  intros Hn Hs. unfold four_digits. cbn [app].
  pose proof (digit_of_div n 1000 ltac:(lia) ltac:(lia) ltac:(lia)) as Ha.
  pose proof (Z.mod_pos_bound (n / 100) 10 ltac:(lia)) as Hb.
  pose proof (Z.mod_pos_bound (n / 10) 10 ltac:(lia)) as Hc.
  pose proof (Z.mod_pos_bound n 10 ltac:(lia)) as Hd.
  rewrite scan_d_digit by exact Ha.
  rewrite !scan_digits_digit by assumption.
  rewrite scan_digits_stop by exact Hs.
  pose proof (Z.div_mod n 10 ltac:(lia)) as E1.
  pose proof (Z.div_mod (n / 10) 10 ltac:(lia)) as E2.
  pose proof (Z.div_mod (n / 100) 10 ltac:(lia)) as E3.
  rewrite !Z.div_div in * by lia.
  change (10 * 10) with 100 in *. change (100 * 10) with 1000 in *.
  cbn [fst snd]. rewrite scanned_small by lia. do 2 f_equal. lia.
Qed.

Lemma cstr_app_no_NUL l r :
  Forall (fun c => Ascii.eqb c NUL = false) l -> cstr (l ++ r) = l ++ cstr r.
Proof.
  induction 1 as [|c l Hc _ IH]; cbn [app cstr]; [reflexivity|].
  rewrite Hc, IH. reflexivity.
Qed.

Lemma sscanf_dt_time_tag d m y h mi s rest :
  0 <= d < 100 -> 0 <= m < 100 -> 0 <= y < 10000 ->
  0 <= h < 100 -> 0 <= mi < 100 -> 0 <= s < 100 ->
  no_digit_first rest ->
  sscanf_dt (time_tag d m y h mi s ++ rest) = Some (d, m, y, h, mi, s).
Proof.
  intros Hd Hm Hy Hh Hmi Hs Hrest. unfold time_tag, sscanf_dt.
  rewrite <- !app_assoc.
  rewrite scan_d_two by (try assumption; reflexivity). cbn [mbind option_bind chars list_ascii_of_string app expect Ascii.eqb Bool.eqb].
  rewrite scan_d_two by (try assumption; reflexivity). cbn [mbind option_bind chars list_ascii_of_string app expect Ascii.eqb Bool.eqb].
  rewrite scan_d_four by (try assumption; reflexivity). cbn [mbind option_bind chars list_ascii_of_string app skip_spaces].
  change (isspace " ") with true. cbv iota.
  unfold two_digits at 1. cbn [app].
  rewrite skip_spaces_digit by (apply digit_of_div; lia).
  change (digit (h / 10) :: digit (h mod 10) :: ":"%char :: two_digits mi ++ ":"%char :: two_digits s ++ rest)
    with (two_digits h ++ ":"%char :: two_digits mi ++ ":"%char :: two_digits s ++ rest).
  rewrite scan_d_two by (try assumption; reflexivity). cbn [mbind option_bind expect Ascii.eqb Bool.eqb].
  rewrite scan_d_two by (try assumption; reflexivity). cbn [mbind option_bind expect Ascii.eqb Bool.eqb].
  rewrite scan_d_two by assumption. reflexivity.
Qed.

Lemma time_tag_no_NUL d m y h mi s :
  0 <= d < 100 -> 0 <= m < 100 -> 0 <= y < 10000 ->
  0 <= h < 100 -> 0 <= mi < 100 -> 0 <= s < 100 ->
  Forall (fun c => Ascii.eqb c NUL = false) (time_tag d m y h mi s).
Proof.
  intros Hd Hm Hy Hh Hmi Hs. unfold time_tag, two_digits, four_digits.
  repeat (apply Forall_app; split);
    repeat (apply Forall_cons; split); try apply Forall_nil; try reflexivity;
    apply digit_not_NUL;
    first [apply Z.mod_pos_bound; lia | apply digit_of_div; lia].
Qed.

(** X18: dt2time reads a time tag dd/mm/yyyy hh:mm:ss back: the six numbers
    go to mktime as day, month - 1, year - 1900, hour, minute and second,
    with the other fields as localtime left them. What follows the seconds
    is not looked at, provided it does not begin with a digit, and no number
    is checked against the calendar or the clock. *)
Theorem dt2time_reads_time_tag (mktime : tm -> Z) (now : tm)
    (d m y h mi s : Z) (rest : list ascii) :
  0 <= d < 100 -> 0 <= m < 100 -> 0 <= y < 10000 ->
  0 <= h < 100 -> 0 <= mi < 100 -> 0 <= s < 100 ->
  no_digit_first (cstr rest) ->
  dt2time mktime now (time_tag d m y h mi s ++ rest)
  = mktime {| tm_sec := s; tm_min := mi; tm_hour := h;
              tm_mday := d; tm_mon := m - 1; tm_year := y - 1900;
              tm_wday := tm_wday now; tm_yday := tm_yday now;
              tm_isdst := tm_isdst now |}.
Proof.
  intros Hd Hm Hy Hh Hmi Hs Hrest. unfold dt2time.
  rewrite cstr_app_no_NUL by (apply time_tag_no_NUL; assumption).
  rewrite sscanf_dt_time_tag by assumption.
  rewrite !to_int_small by lia. reflexivity.
Qed.

Lemma dt2time_reads_time_tag_witness :
  dt2time mktime_utc noon_tm (time_tag 29 10 2014 20 31 8 ++ chars ".942 (0) A0 A2")
  = 1414614668.
Proof.
  rewrite (dt2time_reads_time_tag mktime_utc noon_tm 29 10 2014 20 31 8
             (chars ".942 (0) A0 A2")) by (try lia; reflexivity).
  vm_compute. reflexivity.
Defined.

(** ** Where the decoding stops *)

Lemma hex_of_bytes_app bs1 bs2 :
  hex_of_bytes (bs1 ++ bs2) = hex_of_bytes bs1 ++ hex_of_bytes bs2.
Proof. unfold hex_of_bytes. rewrite map_app, concat_app. reflexivity. Qed.

Lemma decode_hex_then : forall bs line tail k header nbytesRead msg rest,
  Forall is_byte bs ->
  drop header line = hex_of_bytes bs ++ rest ->
  (header + 3 * length bs <= tail)%nat ->
  (length bs <= k)%nat ->
  (nbytesRead + length bs <= length msg)%nat ->
  decode line tail k header nbytesRead msg
  = decode line tail (k - length bs) (header + 3 * length bs) (nbytesRead + length bs)
      (take nbytesRead msg ++ bs ++ drop (nbytesRead + length bs) msg).
Proof.
  induction bs as [|b bs IH]; intros line tail k header nbytesRead msg rest Hbs Htext Htail Hk Hfit.
  - cbn [length app]. rewrite Nat.sub_0_r, Nat.mul_0_r, !Nat.add_0_r, take_drop. reflexivity.
  - inversion Hbs as [|? ? Hb Hbs']; subst.
    cbn [length] in *. destruct k as [|k]; [lia|]. cbn [decode].
    destruct (Nat.ltb_spec header tail) as [_|]; [|lia].
    rewrite Htext. unfold hex_of_bytes. cbn [map concat].
    rewrite <- app_assoc, sscanf_x_hex_byte by exact Hb.
    rewrite (IH line tail k (header + 3)%nat (S nbytesRead) _ rest Hbs').
    + rewrite (to_uchar_of_byte b Hb).
      rewrite (take_S_r _ nbytesRead b) by (apply list_lookup_insert_eq; lia).
      rewrite take_insert_ge by lia.
      rewrite drop_insert_lt by lia.
      rewrite <- app_assoc. cbn [app].
      replace (S nbytesRead + length bs)%nat with (nbytesRead + S (length bs))%nat by lia.
      replace (header + 3 + 3 * length bs)%nat with (header + 3 * S (length bs))%nat by lia.
      replace (S k - S (length bs))%nat with (k - length bs)%nat by lia.
      reflexivity.
    + rewrite <- drop_drop, Htext. unfold hex_of_bytes. cbn [map concat].
      rewrite <- app_assoc. reflexivity.
    + lia.
    + lia.
    + rewrite length_insert. lia.
Qed.

(** X19: a token that does not scan as a hexadecimal number ends the
    decoding without any message of its own: after the bytes [bs], with the
    tail not yet reached and text [junk] on which sscanf fails, the loop
    leaves with [bs] decoded and their number as nbytesRead, the rest of the
    line not being read. *)
Theorem decode_stops_at_bad_token (bs : list Z) (line junk : list ascii)
    (tail header : nat) (msg : list Z) :
  Forall is_byte bs ->
  drop header line = hex_of_bytes bs ++ junk ->
  sscanf_x junk = None ->
  (header + 3 * length bs <= tail)%nat ->
  (length bs <= MSGSIZE)%nat ->
  length msg = MSGSIZE ->
  decode line tail MSGSIZE header 0 msg = (length bs, bs ++ drop (length bs) msg).
Proof.
  intros Hbs Htext Hjunk Htail Hk Hlen.
  rewrite (decode_hex_then bs line tail MSGSIZE header 0%nat msg junk)
    by (try assumption; lia).
  rewrite take_0, app_nil_l, !Nat.add_0_l.
  destruct (MSGSIZE - length bs)%nat as [|k]; cbn [decode]; [reflexivity|].
  destruct (_ <? tail)%nat; [|reflexivity].
  assert (drop (header + 3 * length bs) line = junk) as ->.
  { rewrite <- drop_drop, Htext.
    replace (3 * length bs)%nat with (length (hex_of_bytes bs)).
    - apply drop_app_length.
    - clear. induction bs as [|b bs IH]; [reflexivity|].
      change (hex_of_bytes (b :: bs)) with (hex_byte b ++ hex_of_bytes bs).
      rewrite length_app, IH. cbn [length hex_byte]. lia. }
  rewrite Hjunk. reflexivity.
Qed.

Lemma decode_stops_at_bad_token_witness :
  decode (chars "A0 A2 00 12 33 zz 06 B0 B3") 21 MSGSIZE 6 0 (repeat 0 MSGSIZE)
  = (3%nat, [0; 18; 51] ++ drop 3 (repeat 0 MSGSIZE)).
Proof.
  apply (decode_stops_at_bad_token [0; 18; 51] (chars "A0 A2 00 12 33 zz 06 B0 B3")
           (chars "zz 06 B0 B3") 21 6 (repeat 0 MSGSIZE)).
  - repeat constructor; unfold is_byte; lia.
  - reflexivity.
  - reflexivity.
  - vm_compute. lia.
  - vm_compute. lia.
  - reflexivity.
Defined.

(** X20: the decoding stops at MSGSIZE bytes: of a message with MSGSIZE
    bytes or more before the tail the first MSGSIZE are decoded, OSPmsg is
    filled with them, and check_message answers "No message data". *)
Theorem decode_stops_at_MSGSIZE (bs more : list Z) (line rest : list ascii)
    (tail header : nat) (msg : list Z) :
  Forall is_byte bs ->
  length bs = MSGSIZE ->
  drop header line = hex_of_bytes (bs ++ more) ++ rest ->
  (header + 3 * MSGSIZE <= tail)%nat ->
  length msg = MSGSIZE ->
  decode line tail MSGSIZE header 0 msg = (MSGSIZE, bs)
  /\ check_message bs MSGSIZE = NoMessageData.
Proof.
  intros Hbs Hsize Htext Htail Hlen. split; [|reflexivity].
  rewrite hex_of_bytes_app, <- app_assoc in Htext.
  rewrite (decode_hex_then bs line tail MSGSIZE header 0%nat msg _ Hbs Htext)
    by lia.
  rewrite Hsize, Nat.sub_diag, take_0, app_nil_l, !Nat.add_0_l.
  cbn [decode]. rewrite <- Hlen, drop_all, app_nil_r. reflexivity.
Qed.

Lemma decode_stops_at_MSGSIZE_witness :
  decode (hex_of_bytes (repeat 7 MSGSIZE ++ [8; 9]) ++ chars "B0 B3")
    (3 * MSGSIZE + 6) MSGSIZE 0 0 (repeat 0 MSGSIZE)
  = (MSGSIZE, repeat 7 MSGSIZE).
Proof.
  apply (decode_stops_at_MSGSIZE (repeat 7 MSGSIZE) [8; 9]
           (hex_of_bytes (repeat 7 MSGSIZE ++ [8; 9]) ++ chars "B0 B3") (chars "B0 B3")
           (3 * MSGSIZE + 6) 0 (repeat 0 MSGSIZE)).
  - apply List.Forall_forall. intros b Hb. apply repeat_spec in Hb. subst b.
    unfold is_byte. lia.
  - apply repeat_length.
  - reflexivity.
  - vm_compute. lia.
  - apply repeat_length.
Defined.
